(** * Supertonic TTS daemon: the framed stdin/stdout protocol loop

    A shallow embedding of [scripts/supertonic_daemon.py].  The daemon reads
    length-prefixed requests from standard input, dispatches control
    commands (PING, QUIT, VOICE:, LANG:, SPEED:) or calls the synthesis
    engine, and writes length-prefixed PCM frames to standard output.

    Layout of the development:
    - the Python built-ins the script relies on ([bytes.decode], [str.strip],
      [str.startswith], [float], [int], [struct.pack], [struct.unpack]);
    - numpy's float32 product and cast to int16, and the [supertonic]
      engine as an interface;
    - the daemon itself: session, streams, the loop body, the exception
      handlers, the loop and [main];
    - the properties of the protocol, of the conversion of the samples and
      of the process as a whole. *)

From Stdlib Require Import List ZArith NArith Bool Lia String Ascii Arith.
From Stdlib Require Import Strings.Byte.
From Stdlib Require Import Floats.SpecFloat.
Import ListNotations.

Local Open Scope Z_scope.

(** ** Python values *)

(** A Python [str] is a sequence of Unicode code points; [bytes] is a
    sequence of octets. *)
Definition codepoint := N.
Definition str := list codepoint.
Definition bytes := list byte.

(** ASCII literals of the script, as [str] and as [bytes]. *)
Definition lit (s : string) : str :=
  List.map N_of_ascii (list_ascii_of_string s).

Definition blit (s : string) : bytes := list_byte_of_string s.

Fixpoint str_eqb (a b : str) : bool :=
  match a, b with
  | [], [] => true
  | x :: a', y :: b' => N.eqb x y && str_eqb a' b'
  | _, _ => false
  end.

(** [text.startswith(prefix)] *)
Fixpoint startswith (text prefix : str) : bool :=
  match prefix, text with
  | [], _ => true
  | p :: prefix', c :: text' => N.eqb c p && startswith text' prefix'
  | _ :: _, [] => false
  end.

(** [str.isspace] on one code point: the characters CPython classifies as
    whitespace (bidirectional type WS, B or S, or category Zs). *)
Definition isspace (c : codepoint) : bool :=
  ((9 <=? c) && (c <=? 13) || (28 <=? c) && (c <=? 32)
   || (c =? 133) || (c =? 160) || (c =? 5760)
   || (8192 <=? c) && (c <=? 8202)
   || (c =? 8232) || (c =? 8233) || (c =? 8239) || (c =? 8287)
   || (c =? 12288))%N.

Fixpoint lstrip (s : str) : str :=
  match s with
  | [] => []
  | c :: s' => if isspace c then lstrip s' else s
  end.

Definition rstrip (s : str) : str := rev (lstrip (rev s)).

(** [s.strip()] *)
Definition strip (s : str) : str := rstrip (lstrip s).

(** ** [bytes.decode('utf-8')] (strict error handler)

    [None] stands for [UnicodeDecodeError].  Overlong forms, surrogates and
    code points above U+10FFFF are rejected, as CPython does. *)
Definition is_cont (b : N) : bool := ((128 <=? b) && (b <=? 191))%N.
Definition in_range (lo hi b : N) : bool := ((lo <=? b) && (b <=? hi))%N.
Definition low6 (b : N) : N := (b - 128)%N.

Fixpoint utf8_decode (bs : list N) : option str :=
  match bs with
  | [] => Some []
  | b0 :: r0 =>
    if (b0 <? 128)%N then option_map (cons b0) (utf8_decode r0)
    else if in_range 194 223 b0 then
      match r0 with
      | b1 :: r1 =>
        if is_cont b1
        then option_map (cons ((b0 - 192) * 64 + low6 b1)%N) (utf8_decode r1)
        else None
      | [] => None
      end
    else if in_range 224 239 b0 then
      match r0 with
      | b1 :: b2 :: r2 =>
        if in_range (if (b0 =? 224)%N then 160 else 128)%N
                    (if (b0 =? 237)%N then 159 else 191)%N b1 && is_cont b2
        then option_map
               (cons ((b0 - 224) * 4096 + low6 b1 * 64 + low6 b2)%N)
               (utf8_decode r2)
        else None
      | _ => None
      end
    else if in_range 240 244 b0 then
      match r0 with
      | b1 :: b2 :: b3 :: r3 =>
        if in_range (if (b0 =? 240)%N then 144 else 128)%N
                    (if (b0 =? 244)%N then 143 else 191)%N b1
           && is_cont b2 && is_cont b3
        then option_map
               (cons ((b0 - 240) * 262144 + low6 b1 * 4096
                      + low6 b2 * 64 + low6 b3)%N)
               (utf8_decode r3)
        else None
      | _ => None
      end
    else None
  end.

Definition decode (raw : bytes) : option str :=
  utf8_decode (List.map Byte.to_N raw).

(** A text of ASCII characters. *)
Definition ascii_text (text : str) : Prop :=
  Forall (fun c => (c < 128)%N) text.

(** ** [struct.pack('<I', n)] and [struct.unpack('<I', b)] *)

Definition byte_of_Z (z : Z) : byte :=
  match Byte.of_N (Z.to_N (z mod 256)) with
  | Some b => b
  | None => x00
  end.

Definition Z_of_byte (b : byte) : Z := Z.of_N (Byte.to_N b).

Definition le32 (n : Z) : bytes :=
  [byte_of_Z n; byte_of_Z (n / 256); byte_of_Z (n / 65536);
   byte_of_Z (n / 16777216)].

(** [None] stands for [struct.error] (argument out of range). *)
Definition pack_I (n : Z) : option bytes :=
  if (0 <=? n) && (n <? 4294967296) then Some (le32 n) else None.

(** Little-endian value of a byte string; the script only unpacks
    4-byte headers. *)
Fixpoint unpack_le (b : bytes) : Z :=
  match b with
  | [] => 0
  | x :: b' => Z_of_byte x + 256 * unpack_le b'
  end.

Definition unpack_I (header : bytes) : Z := unpack_le header.

(** ** Python floats (IEEE 754 binary64) and [float(str)] *)

Definition float := spec_float.

Definition prec64 : Z := 53.
Definition emax64 : Z := 1024.

(** [x > 0] on floats: false on zeros, negatives and NaN. *)
Definition float_pos (x : float) : bool := SFltb (S754_zero false) x.

(** The binary64 value nearest to [(-1)^neg * m * 10^e10]. *)
Definition float_of_decimal (neg : bool) (m : N) (e10 : Z) : float :=
  match m with
  | N0 => S754_zero neg
  | Npos p =>
    let digits := Z.log2 (Zpos p) / 3 + 1 in
    if 400 <? e10 then S754_infinity neg
    else if e10 + digits <? -400 then S754_zero neg
    else if 0 <=? e10
    then binary_normalize prec64 emax64
           (if neg then Zneg p * 10 ^ e10 else Zpos p * 10 ^ e10) 0 neg
    else
      let '(q, e, loc) :=
        SFdiv_core_binary prec64 emax64 (Zpos p) 0 (10 ^ (- e10)) 0 in
      binary_round_aux prec64 emax64 neg q e loc
  end.

(** Decimal digits.  The parsers below work on ASCII digits, after the
    conversion [to_ascii_digits]. *)
Definition is_digit (c : codepoint) : bool := ((48 <=? c) && (c <=? 57))%N.
Definition digit_val (c : codepoint) : N := (c - 48)%N.

(** [Py_UNICODE_TODECIMAL].  The characters with a decimal digit value
    (category Nd) come in runs of ten, the digit zero first; these are the
    zeros of the runs of Unicode 14.0, the character database of
    CPython 3.11: ASCII, Arabic-Indic, Devanagari, ..., fullwidth, ...,
    the mathematical digits, ... *)
Definition decimal_zeros : list codepoint :=
  [48; 1632; 1776; 1984; 2406; 2534; 2662; 2790; 2918; 3046; 3174; 3302;
   3430; 3558; 3664; 3792; 3872; 4160; 4240; 6112; 6160; 6470; 6608; 6784;
   6800; 6992; 7088; 7232; 7248; 42528; 43216; 43264; 43472; 43504; 43600;
   44016; 65296; 66720; 68912; 69734; 69872; 69942; 70096; 70384; 70736;
   70864; 71248; 71360; 71472; 71904; 72016; 72784; 73040; 73120; 92768;
   92864; 93008; 120782; 120792; 120802; 120812; 120822; 123200; 123632;
   125264; 130032]%N.

Definition to_decimal (c : codepoint) : option N :=
  option_map (fun z => (c - z)%N)
             (find (fun z => ((z <=? c) && (c <? z + 10))%N) decimal_zeros).

(** [Py_ISSPACE]: white space of the C locale.  Unlike [str.isspace] it
    does not hold of the separators U+001C to U+001F. *)
Definition c_isspace (c : codepoint) : bool :=
  ((9 <=? c) && (c <=? 13) || (c =? 32))%N.

(** What [float] and [int] do to a [str] argument before they parse it
    ([_PyUnicode_TransformDecimalAndSpaceToASCII]): an ASCII string is taken
    as it is; in any other string a character from U+007F on becomes a
    space when it is white space, the ASCII digit of its value when it is a
    decimal digit, and otherwise a question mark at which the string is cut
    off. *)
Fixpoint transform_decimal_and_space (s : str) : str :=
  match s with
  | [] => []
  | c :: s' =>
    if (c <? 127)%N then c :: transform_decimal_and_space s'
    else if isspace c then 32%N :: transform_decimal_and_space s'
    else
      match to_decimal c with
      | Some d => (48 + d)%N :: transform_decimal_and_space s'
      | None => [63%N]
      end
  end.

Definition to_ascii_digits (s : str) : str :=
  if forallb (fun c => (c <? 128)%N) s then s
  else transform_decimal_and_space s.

Fixpoint c_lstrip (s : str) : str :=
  match s with
  | [] => []
  | c :: s' => if c_isspace c then c_lstrip s' else s
  end.

(** Leading and trailing white space of the C locale removed. *)
Definition c_strip (s : str) : str := rev (c_lstrip (rev (c_lstrip s))).

Fixpoint span_digits (s : str) : str * str :=
  match s with
  | c :: s' =>
    if is_digit c
    then let '(d, r) := span_digits s' in (c :: d, r)
    else ([], s)
  | [] => ([], [])
  end.

Definition digits_val (d : str) : N :=
  fold_left (fun acc c => (acc * 10 + digit_val c)%N) d 0%N.

(** Underscores are accepted in numeric strings only between two digits;
    they are then dropped. *)
Fixpoint drop_underscores (prev_digit : bool) (s : str) : option str :=
  match s with
  | [] => Some []
  | c :: s' =>
    if (c =? 95)%N then
      match s' with
      | d :: _ =>
        if prev_digit && is_digit d then drop_underscores false s' else None
      | [] => None
      end
    else option_map (cons c) (drop_underscores (is_digit c) s')
  end.

Definition lower (c : codepoint) : codepoint :=
  if ((65 <=? c) && (c <=? 90))%N then (c + 32)%N else c.

Definition split_sign (s : str) : bool * str :=
  match s with
  | 45%N :: s' => (true, s')
  | 43%N :: s' => (false, s')
  | _ => (false, s)
  end.

(** An exponent part: [e] or [E], optional sign, at least one digit. *)
Definition parse_exponent (s : str) : option Z :=
  match s with
  | [] => Some 0
  | c :: s' =>
    if (lower c =? 101)%N then
      let '(neg, s'') := split_sign s' in
      let '(d, r) := span_digits s'' in
      match d, r with
      | _ :: _, [] =>
        Some (if neg then - Z.of_N (digits_val d) else Z.of_N (digits_val d))
      | _, _ => None
      end
    else None
  end.

(** [float(s)] for a [str] argument; [None] stands for [ValueError].
    The decimal digits of every script are read, surrounding white space is
    ignored, and the words inf, infinity and nan are read in any case. *)
Definition py_float (s : str) : option float :=
  let '(neg, body) := split_sign (c_strip (to_ascii_digits s)) in
  let word := List.map lower body in
  if str_eqb word (lit "inf") || str_eqb word (lit "infinity")
  then Some (S754_infinity neg)
  else if str_eqb word (lit "nan") then Some S754_nan
  else
    match drop_underscores false body with
    | None => None
    | Some plain =>
      let '(ip, r) := span_digits plain in
      let '(fp, r') :=
        match r with
        | 46%N :: r1 => span_digits r1
        | _ => ([], r)
        end in
      match ip ++ fp with
      | [] => None
      | _ :: _ =>
        match parse_exponent r' with
        | None => None
        | Some e =>
          Some (float_of_decimal neg (digits_val (ip ++ fp))
                  (e - Z.of_nat (List.length fp)))
        end
      end
    end.

(** The longest digit string [int] converts
    ([sys.int_info.default_max_str_digits], CPython 3.11 and later). *)
Definition max_str_digits : nat := 4300.

(** [int(s)] for a [str] argument, base 10; [None] stands for
    [ValueError].  The digits are counted with their leading zeros. *)
Definition py_int (s : str) : option Z :=
  let '(neg, body) := split_sign (c_strip (to_ascii_digits s)) in
  match drop_underscores false body with
  | None => None
  | Some plain =>
    let '(d, r) := span_digits plain in
    match d, r with
    | _ :: _, [] =>
      if (max_str_digits <? List.length d)%nat then None
      else
        Some (if neg then - Z.of_N (digits_val d) else Z.of_N (digits_val d))
    | _, _ => None
    end
  end.

(** ** Exceptions and outcomes of fallible operations *)

(** The instances of [Exception] the modelled operations raise; an
    exception coming out of the engine may be any of them. *)
Inductive exception : Type :=
  | ValueError
  | UnicodeDecodeError
  | StructError
  | IndexError
  | BrokenPipeError
  | EngineError (detail : string).

(** What a call yields: a value, an instance of [Exception], or a
    [KeyboardInterrupt] (a [BaseException] that [except Exception] does not
    catch).  The interrupt is modelled where the process waits: in a read
    from standard input that has to wait for bytes, and in the calls into
    the engine. *)
Inductive outcome (A : Type) : Type :=
  | Return (a : A)
  | Raise (e : exception)
  | Interrupt.

Arguments Return {A} a.
Arguments Raise {A} e.
Arguments Interrupt {A}.

(** ** External collaborators *)

(** numpy on the waveform.  The array the engine returns holds IEEE 754
    binary32 numbers. *)
Definition float32 : Type := spec_float.

Definition prec32 : Z := 24.
Definition emax32 : Z := 128.

(** The values that are binary32 numbers: 24 significant bits from
    exponent -149 on, fewer at -149. *)
Definition is_float32 (x : float32) : bool := valid_binary prec32 emax32 x.

(** A Python int as a float32 scalar. *)
Definition float32_of_Z (n : Z) : float32 :=
  binary_normalize prec32 emax32 n 0 false.

(** [x * n] for a float32 [x] and a Python int [n]: the binary32 product,
    rounded to nearest, ties to even. *)
Definition mul_int (x : float32) (n : Z) : float32 :=
  SFmul prec32 emax32 x (float32_of_Z n).

(** The integer part of a finite value (rounding towards zero); none for
    NaN and the infinities. *)
Definition trunc (x : float32) : option Z :=
  match x with
  | S754_zero _ => Some 0
  | S754_finite s m e => Some (cond_Zopp s (Z.shiftl (Zpos m) e))
  | _ => None
  end.

(** Reduction to the 16-bit two's-complement range. *)
Definition wrap16 (z : Z) : Z := (z + 32768) mod 65536 - 32768.

(** [astype(np.int16)] is the C conversion of a float to a 16-bit integer.
    Its result is the integer part when that fits 16 bits.  On the usual
    platforms the conversion goes through a 32-bit integer of which the low
    16 bits are kept, so that an integer part that fits 32 bits wraps
    modulo 2^16, as the specification says.  For NaN, the infinities and
    larger values the conversion is undefined in C and its result depends
    on the platform: it is the one parameter of the model. *)
Class Numpy : Type := {
  cast_undefined : float32 -> Z
}.

Definition astype_int16 `{Numpy} (x : float32) : Z :=
  wrap16 match trunc x with
         | Some t =>
           if (-2147483648 <=? t) && (t <? 2147483648) then t
           else cast_undefined x
         | None => cast_undefined x
         end.

(** The [supertonic] engine: construction, voice-style lookup, sample rate
    and synthesis.  The engine carries a state of its own, so that calls
    need not be deterministic functions of their arguments. *)
Class TTS : Type := {
  Engine : Type;
  Style : Type;
  TTS_new : Engine -> outcome unit * Engine;
  get_voice_style : Engine -> str -> outcome Style * Engine;
  sample_rate : Engine -> Z;
  synthesize :
    Engine -> str -> Style -> str -> Z -> float ->
    outcome (list (list float32) * list float) * Engine
}.

(** ** The daemon *)

(** Lines written to [sys.stderr]; the elapsed wall-clock time of the
    SYNTH line is not recorded. *)
Inductive log_line : Type :=
  | LogLoading (voice lang : str) (speed : float)
  | LogReady (rate : Z)
  | LogTooLong (text_len : Z)
  | LogQuit
  | LogVoiceChanged (voice : str)
  | LogVoiceError (e : exception)
  | LogLangChanged (lang : str)
  | LogSpeedChanged (speed : float)
  | LogSpeedInvalid
  | LogSynth (len_text : nat) (duration0 : float) (pcm : nat)
  | LogError (e : exception)
  | LogStopped.

(** The "SPEED changed to" lines, and the values a log announces by
    them, oldest first. *)
Definition is_speed_changed (l : log_line) : bool :=
  match l with LogSpeedChanged _ => true | _ => false end.

Fixpoint announced_speeds (l : list log_line) : list float :=
  match l with
  | [] => []
  | LogSpeedChanged x :: l' => x :: announced_speeds l'
  | _ :: l' => announced_speeds l'
  end.

Inductive control : Type := Continue | Break.

(** What follows the last byte of the input: the peer has closed the
    stream (a read returns what is left, possibly nothing), or the process
    is interrupted from the keyboard while a read waits for more bytes. *)
Inductive stream_end : Type := Eof | Sigint.

Section Daemon.
Context {np : Numpy} {tts : TTS}.

(** The local variables of [main] that persist across iterations. *)
Record session : Type := {
  voice_name : str;
  lang : str;
  speed : float;
  total_steps : Z;
  style : Style
}.

(** The streams and the engine.  [stdin] is the input that arrives and
    has not been read yet, and [stdin_end] tells what follows its last
    byte: the end of the stream, or a keyboard interrupt while the process
    waits for more.  [stdout] is what has been written; [stdout_quota] is
    the number of writes the peer still accepts before it closes the pipe
    ([None]: it never closes), after which writing and flushing raise
    [BrokenPipeError].  Writes to [stderr] are taken to succeed: the script
    guards none of them. *)
Record world : Type := {
  stdin : bytes;
  stdin_end : stream_end;
  stdout : bytes;
  stdout_quota : option nat;
  stderr : list log_line;
  engine : Engine
}.

Definition state : Type := session * world.

Definition set_stdin (i : bytes) (w : world) : world :=
  {| stdin := i; stdin_end := stdin_end w; stdout := stdout w;
     stdout_quota := stdout_quota w; stderr := stderr w;
     engine := engine w |}.

Definition set_stdout (o : bytes) (q : option nat) (w : world) : world :=
  {| stdin := stdin w; stdin_end := stdin_end w; stdout := o;
     stdout_quota := q; stderr := stderr w; engine := engine w |}.

Definition add_stderr (l : log_line) (w : world) : world :=
  {| stdin := stdin w; stdin_end := stdin_end w; stdout := stdout w;
     stdout_quota := stdout_quota w; stderr := stderr w ++ [l];
     engine := engine w |}.

Definition set_engine (e : Engine) (w : world) : world :=
  {| stdin := stdin w; stdin_end := stdin_end w; stdout := stdout w;
     stdout_quota := stdout_quota w; stderr := stderr w; engine := e |}.

(** The world after [n] bytes were read, after [b] was written, and
    whether the peer keeps the pipe open for more than [k] writes. *)
Definition consume (n : nat) (w : world) : world :=
  set_stdin (skipn n (stdin w)) w.

Definition emit (b : bytes) (w : world) : world :=
  set_stdout (stdout w ++ b) (option_map Nat.pred (stdout_quota w)) w.

Definition writable (k : nat) (w : world) : Prop :=
  match stdout_quota w with
  | None => True
  | Some q => (k < q)%nat
  end.

Definition set_voice (v : str) (sty : Style) (s : session) : session :=
  {| voice_name := v; lang := lang s; speed := speed s;
     total_steps := total_steps s; style := sty |}.

Definition set_lang (l : str) (s : session) : session :=
  {| voice_name := voice_name s; lang := l; speed := speed s;
     total_steps := total_steps s; style := style s |}.

Definition set_speed (x : float) (s : session) : session :=
  {| voice_name := voice_name s; lang := lang s; speed := x;
     total_steps := total_steps s; style := style s |}.

(** *** A state monad with exceptions

    The state survives a raised exception: what the body assigned or
    wrote before raising stays assigned and written. *)
Definition M (A : Type) : Type := state -> outcome A * state.

Definition ret {A} (a : A) : M A := fun st => (Return a, st).

Definition bind {A B} (m : M A) (k : A -> M B) : M B :=
  fun st =>
    match m st with
    | (Return a, st') => k a st'
    | (Raise e, st') => (Raise e, st')
    | (Interrupt, st') => (Interrupt, st')
    end.

Definition raise {A} (e : exception) : M A := fun st => (Raise e, st).

(** [try: m  except <class> as e: h e], where [catches] tells which
    exceptions the clause matches.  A [KeyboardInterrupt] passes
    through. *)
Definition try_except {A} (catches : exception -> bool)
           (m : M A) (h : exception -> M A) : M A :=
  fun st =>
    match m st with
    | (Raise e, st') => if catches e then h e st' else (Raise e, st')
    | r => r
    end.

Definition is_ValueError (e : exception) : bool :=
  match e with ValueError => true | _ => false end.

Definition is_Exception (e : exception) : bool := true.

Definition of_option {A} (e : exception) (o : option A) : M A :=
  match o with Some a => ret a | None => raise e end.

Definition modify_session (f : session -> session) : M unit :=
  fun st => (Return tt, (f (fst st), snd st)).

Notation "x <- m ;; k" := (bind m (fun x => k))
  (at level 61, m at next level, right associativity).
Notation "m ;; k" := (bind m (fun _ => k))
  (at level 61, right associativity).

(** *** Streams *)

(** A read of [n] bytes returns when the [n] bytes arrive or the stream
    ends before; otherwise it is still waiting when the interrupt comes. *)
Definition read_returns (n : nat) (w : world) : bool :=
  (n <=? List.length (stdin w))%nat
  || match stdin_end w with Eof => true | Sigint => false end.

(** [sys.stdin.buffer.read(n)]: the next [n] bytes, fewer at end of
    stream; [KeyboardInterrupt] when the process is interrupted while the
    read waits (the bytes handed to the interrupted call are lost). *)
Definition stdin_read (n : nat) : M bytes :=
  fun st =>
    let w := snd st in
    (if read_returns n w then Return (firstn n (stdin w)) else Interrupt,
     (fst st, consume n w)).

(** [sys.stdout.buffer.write(b)] *)
Definition stdout_write (b : bytes) : M unit :=
  fun st =>
    let w := snd st in
    match stdout_quota w with
    | Some O => (Raise BrokenPipeError, st)
    | _ => (Return tt, (fst st, emit b w))
    end.

(** [sys.stdout.buffer.flush()] *)
Definition stdout_flush : M unit :=
  fun st =>
    match stdout_quota (snd st) with
    | Some O => (Raise BrokenPipeError, st)
    | _ => (Return tt, st)
    end.

(** [sys.stderr.write(line); sys.stderr.flush()] *)
Definition log (l : log_line) : M unit :=
  fun st => (Return tt, (fst st, add_stderr l (snd st))).

(** *** Calls into the engine *)

Definition call_get_voice_style (v : str) : M Style :=
  fun st =>
    let '(r, e) := get_voice_style (engine (snd st)) v in
    (r, (fst st, set_engine e (snd st))).

Definition call_synthesize (text : str)
  : M (list (list float32) * list float) :=
  fun st =>
    let s := fst st in
    let '(r, e) :=
      synthesize (engine (snd st)) text (style s) (lang s)
                 (total_steps s) (speed s) in
    (r, (s, set_engine e (snd st))).

(** *** float32 to 16-bit PCM *)

(** [wav.flatten()] *)
Definition flatten (wav : list (list float32)) : list float32 :=
  List.concat wav.

(** [(samples * 32767).astype(np.int16)] *)
Definition to_pcm16 (samples : list float32) : list Z :=
  List.map (fun x => astype_int16 (mul_int x 32767)) samples.

(** [pcm16.tobytes()]: two bytes per sample, low byte first. *)
Definition int16_bytes (z : Z) : bytes := [byte_of_Z z; byte_of_Z (z / 256)].

Definition tobytes (pcm16 : list Z) : bytes := flat_map int16_bytes pcm16.

(** [duration[0]] *)
Definition index0 (duration : list float) : M float :=
  of_option IndexError (nth_error duration 0).

(** *** One iteration of [while True] *)

(** The empty frame: [write(struct.pack('<I', 0)); flush()]. *)
Definition write_empty_frame : M unit :=
  b <- of_option StructError (pack_I 0) ;;
  stdout_write b ;;
  stdout_flush.

(** Lines 66-69: [PING]. *)
Definition cmd_ping : M control :=
  stdout_write (blit "PONG" ++ [x0a]) ;;
  stdout_flush ;;
  ret Continue.

(** Lines 70-73: [QUIT]. *)
Definition cmd_quit : M control :=
  log LogQuit ;;
  ret Break.

(** Lines 74-86: [VOICE:X]. *)
Definition cmd_voice (text : str) : M control :=
  let new_voice := strip (skipn 6 text) in
  try_except is_Exception
    (sty <- call_get_voice_style new_voice ;;
     modify_session (set_voice new_voice sty) ;;
     log (LogVoiceChanged new_voice))
    (fun e => log (LogVoiceError e)) ;;
  write_empty_frame ;;
  ret Continue.

(** Lines 87-93: [LANG:X]. *)
Definition cmd_lang (text : str) : M control :=
  let new_lang := strip (skipn 5 text) in
  modify_session (set_lang new_lang) ;;
  log (LogLangChanged new_lang) ;;
  write_empty_frame ;;
  ret Continue.

(** Lines 94-103: [SPEED:X]. *)
Definition cmd_speed (text : str) : M control :=
  try_except is_ValueError
    (x <- of_option ValueError (py_float (strip (skipn 6 text))) ;;
     modify_session (set_speed x) ;;
     log (LogSpeedChanged x))
    (fun _ => log LogSpeedInvalid) ;;
  write_empty_frame ;;
  ret Continue.

(** Lines 105-130: synthesis and the PCM response frame. *)
Definition synth (text : str) : M control :=
  r <- call_synthesize text ;;
  let '(wav, duration) := r in
  let samples := flatten wav in
  let pcm16 := to_pcm16 samples in
  let pcm_bytes := tobytes pcm16 in
  d0 <- index0 duration ;;
  log (LogSynth (List.length text) d0 (List.length pcm_bytes)) ;;
  hdr <- of_option StructError (pack_I (Z.of_nat (List.length pcm_bytes))) ;;
  stdout_write hdr ;;
  stdout_write pcm_bytes ;;
  stdout_flush ;;
  ret Continue.

(** Lines 66-130: the [if]/[elif] chain on the decoded text. *)
Definition dispatch (text : str) : M control :=
  if str_eqb text (lit "PING") then cmd_ping
  else if str_eqb text (lit "QUIT") then cmd_quit
  else if startswith text (lit "VOICE:") then cmd_voice text
  else if startswith text (lit "LANG:") then cmd_lang text
  else if startswith text (lit "SPEED:") then cmd_speed text
  else synth text.

(** Lines 47-130: the body of the [try] statement.  Its value tells how
    the iteration ends: [continue] (or falling off the end of the body)
    or [break]. *)
Definition body : M control :=
  header <- stdin_read 4 ;;
  if (List.length header <? 4)%nat then ret Break else
  let text_len := unpack_I header in
  if text_len =? 0 then ret Continue else
  if 100000 <? text_len then
    log (LogTooLong text_len) ;;
    write_empty_frame ;;
    ret Continue
  else
  raw <- stdin_read (Z.to_nat text_len) ;;
  text <- of_option UnicodeDecodeError (decode raw) ;;
  dispatch text.

(** The [except Exception as e] clause: log, try to send an empty
    frame; the bare [except: break] around that write ends the loop. *)
Definition handler (e : exception) (st : state) : control * state :=
  match (log (LogError e) ;; write_empty_frame) st with
  | (Return _, st') => (Continue, st')
  | (_, st') => (Break, st')
  end.

(** Lines 132-142: what the clauses of the [try] statement make of the
    way the body ended.  [except KeyboardInterrupt: break]; [except
    Exception as e]: the handler; otherwise the body's own [continue] or
    [break]. *)
Definition except_clauses (r : outcome control * state) : control * state :=
  match r with
  | (Return c, st') => (c, st')
  | (Interrupt, st') => (Break, st')
  | (Raise e, st') => handler e st'
  end.

(** The [try] statement: one iteration of the loop. *)
Definition cycle (st : state) : control * state :=
  except_clauses (body st).

(** [while True]: iterate until a [break]. *)
Fixpoint loop (fuel : nat) (st : state) : option state :=
  match fuel with
  | O => None
  | S fuel' =>
    match cycle st with
    | (Break, st') => Some st'
    | (Continue, st') => loop fuel' st'
    end
  end.

(** *** Start-up and [main] *)

(** Lines 27-30: positional arguments with their defaults. *)
Definition default_speed : float := float_of_decimal false 105 (-2).

Definition parse_args (argv : list str) : option (str * str * float * Z) :=
  let voice := match nth_error argv 1 with Some a => a | None => lit "M1" end in
  let lang := match nth_error argv 2 with Some a => a | None => lit "ko" end in
  match
    match nth_error argv 3 with
    | Some a => py_float a
    | None => Some default_speed
    end
  with
  | None => None
  | Some speed =>
    match
      match nth_error argv 4 with Some a => py_int a | None => Some 5 end
    with
    | None => None
    | Some steps => Some (voice, lang, speed, steps)
    end
  end.

(** How the process ends: the loop was left and "Daemon stopped." was
    logged, or an exception or interrupt escaped [main]. *)
Inductive exit_status : Type :=
  | Stopped (s : session)
  | Uncaught (e : exception)
  | Interrupted.

(** Start-up up to the READY line. *)
Definition startup (argv : list str) (w : world)
  : outcome session * world :=
  match parse_args argv with
  | None => (Raise ValueError, w)
  | Some (voice, lang, speed, steps) =>
    let w1 := add_stderr (LogLoading voice lang speed) w in
    match TTS_new (engine w1) with
    | (Return _, e1) =>
      match get_voice_style e1 voice with
      | (Return sty, e2) =>
        (Return {| voice_name := voice; lang := lang; speed := speed;
                   total_steps := steps; style := sty |},
         add_stderr (LogReady (sample_rate e2)) (set_engine e2 w1))
      | (Raise e, e2) => (Raise e, set_engine e2 w1)
      | (Interrupt, e2) => (Interrupt, set_engine e2 w1)
      end
    | (Raise e, e1) => (Raise e, set_engine e1 w1)
    | (Interrupt, e1) => (Interrupt, set_engine e1 w1)
    end
  end.

(** [main]; the fuel given to the loop is one more than the number of
    unread input bytes ([main_total] shows it is enough). *)
Definition main (argv : list str) (w : world)
  : option (exit_status * world) :=
  match startup argv w with
  | (Return s, w') =>
    match loop (S (List.length (stdin w'))) (s, w') with
    | Some (s', w'') => Some (Stopped s', add_stderr LogStopped w'')
    | None => None
    end
  | (Raise e, w') => Some (Uncaught e, w')
  | (Interrupt, w') => Some (Interrupted, w')
  end.

(** *** What an iteration reads

    The header, the declared length and the payload that the iteration
    starting in world [w] reads, and the commands of the protocol. *)
Definition header (w : world) : bytes := firstn 4 (stdin w).

Definition text_len (w : world) : Z := unpack_I (header w).

Definition payload (w : world) : bytes :=
  firstn (Z.to_nat (text_len w)) (skipn 4 (stdin w)).

Definition after_payload (w : world) : world :=
  consume (Z.to_nat (text_len w)) (consume 4 w).

Definition is_command (text : str) : bool :=
  str_eqb text (lit "PING") || str_eqb text (lit "QUIT")
  || startswith text (lit "VOICE:") || startswith text (lit "LANG:")
  || startswith text (lit "SPEED:").

(** The read of the payload returns: it is not interrupted. *)
Definition payload_read (w : world) : Prop :=
  read_returns (Z.to_nat (text_len w)) (consume 4 w) = true.

(** The iteration reads a complete header announcing a payload within the
    size limit, the read of the payload returns, and the payload decodes
    to [text]. *)
Definition request (w : world) (text : str) : Prop :=
  List.length (header w) = 4%nat /\
  0 < text_len w <= 100000 /\
  payload_read w /\
  decode (payload w) = Some text.

(** The ways an iteration can leave the loop, besides QUIT: fewer than
    four bytes are left for the header, and the stream ends (the read
    comes back short) or the process is interrupted while it waits for the
    rest; the process is interrupted while it waits for the rest of the
    payload; a call into the engine was interrupted from the keyboard; the
    body raised an exception and the pipe does not accept the empty frame
    the handler writes. *)
Definition short_header (w : world) : Prop :=
  (List.length (header w) < 4)%nat.

Definition end_of_stream (w : world) : Prop :=
  short_header w /\ stdin_end w = Eof.

Definition interrupted_read (w : world) : Prop :=
  stdin_end w = Sigint /\
  (short_header w \/
   (List.length (header w) = 4%nat /\ 0 < text_len w <= 100000 /\
    (List.length (stdin w) < 4 + Z.to_nat (text_len w))%nat)).



(** The lines logged between two worlds. *)
Definition logged_since (w w' : world) : list log_line :=
  skipn (List.length (stderr w)) (stderr w').

(** *** Relations between the states of a run *)

(** Every run of [m] takes a state to one related to it by [R]. *)
Definition respects (R : state -> state -> Prop) {A : Type} (m : M A)
  : Prop :=
  forall st, R st (snd (m st)).

(** The unread input has not grown. *)
Definition stdin_shrinks (st st' : state) : Prop :=
  (List.length (stdin (snd st')) <= List.length (stdin (snd st)))%nat.

(** The speed is what it was. *)
Definition same_speed (st st' : state) : Prop :=
  speed (fst st') = speed (fst st).

(** The log has grown, and the speed is the last value the new lines
    announce, or what it was when they announce none. *)
Definition speed_follows_log (st st' : state) : Prop :=
  exists l,
    stderr (snd st') = stderr (snd st) ++ l /\
    speed (fst st') = last (announced_speeds l) (speed (fst st)).

(** The log only grows. *)
Definition log_grows (st st' : state) : Prop :=
  exists l, stderr (snd st') = stderr (snd st) ++ l.

(** A computation that ends in [continue] or raises an exception. *)
Definition plain (m : M control) : Prop :=
  forall st, fst (m st) = Return Continue \/ exists e, fst (m st) = Raise e.


(** *** More relations and predicates on strings and states *)

(** Every character of [s] is white space. *)
Definition blank (s : str) : Prop := forallb isspace s = true.

(** [s] neither begins nor ends with white space. *)
Definition no_outer_space (s : str) : Prop :=
  (forall c r, s = c :: r -> isspace c = false) /\
  (forall c r, s = r ++ [c] -> isspace c = false).

(** The session, the engine, the step count are what they were. *)
Definition same_session (st st' : state) : Prop := fst st' = fst st.

Definition same_engine (st st' : state) : Prop :=
  engine (snd st') = engine (snd st).

Definition same_steps (st st' : state) : Prop :=
  total_steps (fst st') = total_steps (fst st).

(** The unread input is what it was. *)
Definition same_stdin (st st' : state) : Prop :=
  stdin (snd st') = stdin (snd st).

(** The number of samples of a waveform. *)
Definition n_samples (wav : list (list float32)) : nat :=
  List.length (flatten wav).

End Daemon.

(** ** The values of the samples

    Quantities used to state and prove the properties of the conversion:
    [v / g] rounded to the nearest integer, ties to even; the spacing of
    the binary32 numbers around a positive value of [v] units of 2^-158,
    in the same units; [v] rounded to binary32; the value of a sample in
    units of 2^-149 (0 for NaN and the infinities); the PCM value of a
    sample of [u] units; the samples between -1 and 1. *)
Definition rnd (v g : Z) : Z :=
  match 2 * (v mod g) ?= g with
  | Lt => v / g
  | Gt => v / g + 1
  | Eq => if Z.even (v / g) then v / g else v / g + 1
  end.

Definition grid (v : Z) : Z := 2 ^ Z.max (Z.log2 v + 1 - 24) 9.

Definition round32 (v : Z) : Z := rnd v (grid v) * grid v.

Definition units (x : float32) : Z :=
  match x with
  | S754_finite s m e => cond_Zopp s (Zpos m * 2 ^ (e + 149))
  | _ => 0
  end.

Definition pcm_of_units (u : Z) : Z :=
  Z.sgn u * (round32 (Z.abs u * 16776704) / 2 ^ 158).

Definition f32_one : float32 := float32_of_Z 1.

Definition in_unit_range (x : float32) : Prop :=
  is_float32 x = true /\
  SFleb (SFopp f32_one) x = true /\ SFleb x f32_one = true.

(** ** A test double of the engine

    A small engine used to run the daemon on concrete inputs: the sample
    for a character [c] is [(c - 64) / 64], the voices are M1 and F1, the
    text [boom] makes synthesis fail and the text or voice [^C] interrupts
    the call. *)
Module Double.

#[export] Instance fake_numpy : Numpy := {|
  cast_undefined := fun _ => 0
|}.

Definition sample (c : codepoint) : float32 :=
  binary_normalize prec32 emax32 (Z.of_N c - 64) (-6) false.

Definition f32_half : float32 := binary_normalize prec32 emax32 1 (-1) false.

Definition lookup (e : nat) (v : str) : outcome str * nat :=
  if str_eqb v (lit "^C") then (Interrupt, S e)
  else if str_eqb v (lit "M1") || str_eqb v (lit "F1")
  then (Return v, S e)
  else (Raise (EngineError "unknown voice"), S e).

Definition speak (e : nat) (text : str) (sty lang : str) (steps : Z)
           (speed : float)
  : outcome (list (list float32) * list float) * nat :=
  if str_eqb text (lit "^C") then (Interrupt, S e)
  else if str_eqb text (lit "boom")
  then (Raise (EngineError "synthesis failed"), S e)
  else (Return ([List.map sample text],
                [S754_finite false 1 (-1)]),
        S e).

#[export] Instance fake_tts : TTS := {|
  Engine := nat;
  Style := str;
  TTS_new := fun e => (Return tt, S e);
  get_voice_style := lookup;
  sample_rate := fun _ => 44100;
  synthesize := speak
|}.

(** A request frame carrying the given text (ASCII). *)
Definition frame (text : string) : bytes :=
  le32 (Z.of_nat (String.length text)) ++ blit text.

Definition world0 (input : bytes) (quota : option nat) : world :=
  {| stdin := input; stdin_end := Eof; stdout := []; stdout_quota := quota;
     stderr := []; engine := 0%nat |}.

(** The same input, followed by a keyboard interrupt instead of the end of
    the stream. *)
Definition then_sigint (w : world) : world :=
  {| stdin := stdin w; stdin_end := Sigint; stdout := stdout w;
     stdout_quota := stdout_quota w; stderr := stderr w;
     engine := engine w |}.

Definition session0 : session :=
  {| voice_name := lit "M1"; lang := lit "ko"; speed := default_speed;
     total_steps := 5; style := lit "M1" |}.

Definition argv0 : list str := [lit "supertonic_daemon.py"].

(** Inputs used below: one request each, on an open or a closed pipe. *)
Definition w_hello : world := world0 (frame "hello") None.
Definition w_ping : world := world0 (frame "PING") None.
Definition w_empty_frame : world := world0 (le32 0 ++ frame "PING") None.
Definition w_oversized : world :=
  world0 ([xff; xff; xff; xff] ++ blit "abc") None.
Definition w_bad_utf8 : world := world0 (le32 1 ++ [xff]) None.
Definition w_bad_utf8_closed : world :=
  world0 (le32 1 ++ [xff]) (Some 0%nat).
Definition w_bad_speed : world := world0 (frame "SPEED:fast") None.
Definition w_negative_speed : world := world0 (frame "SPEED:-1") None.
Definition w_lang : world := world0 (frame "LANG: en ") None.
Definition w_hello_closed : world :=
  world0 (frame "hello" ++ frame "PING") (Some 0%nat).
Definition w_speeds : world :=
  world0 (frame "SPEED:1.2" ++ frame "SPEED:fast") None.
Definition after_loop (fuel : nat) (st : @state fake_tts) : state :=
  match loop fuel st with
  | Some st' => st'
  | None => st
  end.
Definition w_blank_speed : world := world0 (frame "SPEED: ") None.
Definition w_two_frames : world :=
  world0 (frame "hello" ++ frame "PING") None.
Definition w_truncated : world := world0 (le32 5 ++ blit "he") None.
(** SPEED: followed by U+0661, the Arabic-Indic digit one. *)
Definition w_arabic_speed : world :=
  world0 (le32 8 ++ blit "SPEED:" ++ [xd9; xa1]) None.
Definition f64_one : float := S754_finite false 4503599627370496 (-52).
Definition argv_long_steps : list str :=
  [lit "supertonic_daemon.py"; lit "M1"; lit "ko"; lit "1.5";
   List.repeat 49%N 4301].
Definition w_truncated_sigint : world := then_sigint w_truncated.
Definition argv_bad_speed : list str :=
  [lit "supertonic_daemon.py"; lit "M1"; lit "ko"; lit "fast"].
Definition argv_negative_speed : list str :=
  [lit "supertonic_daemon.py"; lit "M1"; lit "ko"; lit "-1"].

(** The parts of the state an iteration ends in. *)
Definition exit_of (st : @state fake_tts) : control :=
  fst (cycle st).
Definition session_after (st : @state fake_tts) : session :=
  fst (snd (cycle st)).
Definition world_after (st : @state fake_tts) : world :=
  snd (snd (cycle st)).

End Double.
(** * Properties *)

(** ** Bytes and strings *)

Lemma Z_of_byte_of_Z (z : Z) : Z_of_byte (byte_of_Z z) = z mod 256.
Proof.
  unfold Z_of_byte, byte_of_Z.
  assert (Hr : 0 <= z mod 256 < 256) by (apply Z.mod_pos_bound; lia).
  destruct (Byte.of_N (Z.to_N (z mod 256))) as [b|] eqn:E.
  - apply Byte.to_of_N in E. rewrite E. lia.
  - apply Byte.of_N_None_iff in E. lia.
Qed.

Lemma unpack_I_le32 (n : Z) :
  0 <= n < 4294967296 -> unpack_I (le32 n) = n.
Proof.
  intros Hn. unfold unpack_I, le32, unpack_le.
  rewrite !Z_of_byte_of_Z.
  assert (E1 : n / 65536 = n / 256 / 256)
    by (rewrite Z.div_div by lia; reflexivity).
  assert (E2 : n / 16777216 = n / 256 / 256 / 256)
    by (rewrite !Z.div_div by lia; reflexivity).
  rewrite E1, E2.
  pose proof (Z.div_mod n 256 ltac:(lia)) as H0.
  pose proof (Z.div_mod (n / 256) 256 ltac:(lia)) as H1.
  pose proof (Z.div_mod (n / 256 / 256) 256 ltac:(lia)) as H2.
  assert (H3 : 0 <= n / 256 / 256 / 256 < 256).
  { rewrite <- E2. split; [apply Z.div_pos; lia|].
    apply Z.div_lt_upper_bound; lia. }
  rewrite (Z.mod_small (n / 256 / 256 / 256)) by lia.
  lia.
Qed.

Lemma le32_length (n : Z) : List.length (le32 n) = 4%nat.
Proof. reflexivity. Qed.

Lemma tobytes_length (pcm16 : list Z) :
  List.length (tobytes pcm16) = (2 * List.length pcm16)%nat.
Proof.
  induction pcm16 as [|z l IH]; simpl; [reflexivity | rewrite IH; lia].
Qed.

Lemma str_eqb_eq (a b : str) : str_eqb a b = true <-> a = b.
Proof.
  revert b; induction a as [|x a IH]; intros [|y b]; simpl;
    try (split; [discriminate | discriminate]); [tauto|].
  rewrite andb_true_iff, N.eqb_eq, IH.
  split; [intros [-> ->]; reflexivity | intros [= -> ->]; auto].
Qed.

Lemma str_eqb_refl (a : str) : str_eqb a a = true.
Proof. apply str_eqb_eq; reflexivity. Qed.

(** A text that starts with one of the three prefixes is neither [PING]
    nor [QUIT], and starts with only one of them. *)
Ltac first_char H :=
  match type of H with
  | startswith ?t _ = true =>
    destruct t as [|?c ?t']; simpl in H; [discriminate|];
    apply andb_true_iff in H; destruct H as [H _];
    apply N.eqb_eq in H; subst; reflexivity
  end.

Lemma voice_dispatch (text : str) :
  startswith text (lit "VOICE:") = true ->
  str_eqb text (lit "PING") = false /\ str_eqb text (lit "QUIT") = false.
Proof. intros H; split; first_char H. Qed.

Lemma lang_dispatch (text : str) :
  startswith text (lit "LANG:") = true ->
  str_eqb text (lit "PING") = false /\ str_eqb text (lit "QUIT") = false /\
  startswith text (lit "VOICE:") = false.
Proof. intros H; repeat split; first_char H. Qed.

Lemma speed_dispatch (text : str) :
  startswith text (lit "SPEED:") = true ->
  str_eqb text (lit "PING") = false /\ str_eqb text (lit "QUIT") = false /\
  startswith text (lit "VOICE:") = false /\
  startswith text (lit "LANG:") = false.
Proof. intros H; repeat split; first_char H. Qed.

Lemma skipn_length_app {A : Type} (a b : list A) :
  skipn (List.length a) (a ++ b) = b.
Proof. induction a as [|x a IH]; [reflexivity | exact IH]. Qed.

Create HintDb respects.

Section Properties.
Context {np : Numpy} {tts : TTS}.

Notation "x <- m ;; k" := (bind m (fun x => k))
  (at level 61, m at next level, right associativity).
Notation "m ;; k" := (bind m (fun _ => k))
  (at level 61, right associativity).

(** ** Running the pieces of an iteration *)

Lemma write_empty_frame_ok (s : session) (w : world) :
  writable 1 w ->
  write_empty_frame (s, w) = (Return tt, (s, emit (le32 0) w)).
Proof.
  unfold writable, write_empty_frame, bind, stdout_write, stdout_flush.
  simpl. destruct (stdout_quota w) as [[|[|q]]|] eqn:E; simpl;
    rewrite ?E; simpl; try reflexivity; lia.
Qed.

Lemma write_empty_frame_closed (s : session) (w : world) :
  stdout_quota w = Some 0%nat ->
  write_empty_frame (s, w) = (Raise BrokenPipeError, (s, w)).
Proof.
  intros E. unfold write_empty_frame, bind, stdout_write. simpl.
  rewrite E. reflexivity.
Qed.

(** The empty frame is written or [BrokenPipeError] is raised; nothing
    else happens, and the session is not touched. *)
Lemma write_empty_frame_cases (s : session) (w : world) :
  (exists w', write_empty_frame (s, w) = (Return tt, (s, w'))) \/
  (exists w', write_empty_frame (s, w) = (Raise BrokenPipeError, (s, w'))).
Proof.
  unfold write_empty_frame, bind, stdout_write, stdout_flush. simpl.
  destruct (stdout_quota w) as [[|[|q]]|] eqn:E; simpl; rewrite ?E; simpl;
    eauto.
Qed.

(** A read of a complete header does not wait. *)
Lemma read_returns_header (w : world) :
  (List.length (header w) <? 4)%nat = false -> read_returns 4 w = true.
Proof.
  intros H. apply Nat.ltb_ge in H. unfold header in H.
  rewrite length_firstn in H. unfold read_returns.
  replace (4 <=? List.length (stdin w))%nat with true; [reflexivity|].
  symmetry. apply Nat.leb_le. lia.
Qed.

(** The body, read as a function of what the iteration reads. *)
Lemma body_eq (s : session) (w : world) :
  body (s, w) =
  if (List.length (header w) <? 4)%nat
  then (if read_returns 4 w then Return Break else Interrupt,
        (s, consume 4 w))
  else if text_len w =? 0 then (Return Continue, (s, consume 4 w))
  else if 100000 <? text_len w
  then (write_empty_frame ;; ret Continue)
         (s, add_stderr (LogTooLong (text_len w)) (consume 4 w))
  else if read_returns (Z.to_nat (text_len w)) (consume 4 w)
  then match decode (payload w) with
       | Some text => dispatch text (s, after_payload w)
       | None => (Raise UnicodeDecodeError, (s, after_payload w))
       end
  else (Interrupt, (s, after_payload w)).
Proof.
  unfold body. unfold bind at 1. unfold stdin_read at 1. cbn [fst snd].
  change (firstn 4 (stdin w)) with (header w).
  destruct (List.length (header w) <? 4)%nat eqn:L.
  - destruct (read_returns 4 w); [rewrite L|]; reflexivity.
  - rewrite (read_returns_header w L), L.
    change (unpack_I (header w)) with (text_len w).
    destruct (text_len w =? 0); [reflexivity|].
    destruct (100000 <? text_len w); [reflexivity|].
    unfold bind at 1. unfold stdin_read. cbn [fst snd].
    change (firstn (Z.to_nat (text_len w)) (stdin (consume 4 w)))
      with (payload w).
    change (consume (Z.to_nat (text_len w)) (consume 4 w))
      with (after_payload w).
    destruct (read_returns (Z.to_nat (text_len w)) (consume 4 w));
      [|reflexivity].
    unfold bind, of_option.
    destruct (decode (payload w)); reflexivity.
Qed.

(** The body on a payload within the limit whose read returns. *)
Lemma body_payload (s : session) (w : world) :
  List.length (header w) = 4%nat ->
  0 < text_len w <= 100000 ->
  payload_read w ->
  body (s, w) =
  match decode (payload w) with
  | Some text => dispatch text (s, after_payload w)
  | None => (Raise UnicodeDecodeError, (s, after_payload w))
  end.
Proof.
  intros Hh Hl Hp. rewrite body_eq, Hh, Hp.
  change (4 <? 4)%nat with false. cbv iota.
  replace (text_len w =? 0) with false by (symmetry; apply Z.eqb_neq; lia).
  replace (100000 <? text_len w) with false
    by (symmetry; apply Z.ltb_ge; lia).
  reflexivity.
Qed.

Lemma body_request (s : session) (w : world) (text : str) :
  request w text -> body (s, w) = dispatch text (s, after_payload w).
Proof.
  intros (Hh & Hl & Hp & Hd). rewrite (body_payload s w Hh Hl Hp), Hd.
  reflexivity.
Qed.

(** Leaving an iteration by [continue] or [break], seen from the loop. *)
Lemma loop_continue (fuel : nat) (st st' : state) :
  cycle st = (Continue, st') -> loop (S fuel) st = loop fuel st'.
Proof. intros H; simpl; rewrite H; reflexivity. Qed.

Lemma loop_break (fuel : nat) (st st' : state) :
  cycle st = (Break, st') -> loop (S fuel) st = Some st'.
Proof. intros H; simpl; rewrite H; reflexivity. Qed.

Lemma cycle_request (s : session) (w : world) (text : str) :
  request w text ->
  cycle (s, w) = except_clauses (dispatch text (s, after_payload w)).
Proof. intros R. unfold cycle. rewrite (body_request s w text R). reflexivity. Qed.

Lemma handler_ok (e : exception) (s : session) (w : world) :
  writable 1 w ->
  handler e (s, w) = (Continue, (s, emit (le32 0) (add_stderr (LogError e) w))).
Proof.
  intros Hq. unfold handler. unfold bind at 1. unfold log. cbn [fst snd].
  rewrite write_empty_frame_ok by exact Hq. reflexivity.
Qed.

Lemma handler_closed (e : exception) (s : session) (w : world) :
  stdout_quota w = Some 0%nat ->
  handler e (s, w) = (Break, (s, add_stderr (LogError e) w)).
Proof.
  intros Hq. unfold handler. unfold bind at 1. unfold log. cbn [fst snd].
  rewrite write_empty_frame_closed by exact Hq. reflexivity.
Qed.

Lemma ack_ok (s : session) (w : world) :
  writable 1 w ->
  (write_empty_frame ;; ret Continue) (s, w)
  = (Return Continue, (s, emit (le32 0) w)).
Proof.
  intros Hq. unfold bind at 1. rewrite write_empty_frame_ok by exact Hq.
  reflexivity.
Qed.

Lemma logged_since_add (w w' : world) (l : log_line) :
  stderr w' = stderr w ++ [l] -> logged_since w w' = [l].
Proof.
  intros E. unfold logged_since. rewrite E. apply skipn_length_app.
Qed.

(** ** The control commands, one by one *)

Lemma cmd_ping_ok (s : session) (w : world) :
  writable 1 w ->
  cmd_ping (s, w) = (Return Continue, (s, emit (blit "PONG" ++ [x0a]) w)).
Proof.
  unfold writable, cmd_ping, bind, stdout_write, stdout_flush, ret.
  cbn [fst snd].
  destruct (stdout_quota w) as [[|[|q]]|] eqn:E; cbn; rewrite ?E; cbn;
    try reflexivity; lia.
Qed.

Lemma cmd_quit_eq (s : session) (w : world) :
  cmd_quit (s, w) = (Return Break, (s, add_stderr LogQuit w)).
Proof. reflexivity. Qed.

Lemma cmd_lang_eq (text : str) (s : session) (w : world) :
  cmd_lang text (s, w) =
  (write_empty_frame ;; ret Continue)
    (set_lang (strip (skipn 5 text)) s,
     add_stderr (LogLangChanged (strip (skipn 5 text))) w).
Proof. reflexivity. Qed.

Lemma cmd_speed_eq (text : str) (s : session) (w : world) :
  cmd_speed text (s, w) =
  match py_float (strip (skipn 6 text)) with
  | Some x =>
    (write_empty_frame ;; ret Continue)
      (set_speed x s, add_stderr (LogSpeedChanged x) w)
  | None =>
    (write_empty_frame ;; ret Continue) (s, add_stderr LogSpeedInvalid w)
  end.
Proof.
  unfold cmd_speed. unfold bind at 1. unfold try_except.
  unfold bind at 1. unfold of_option.
  destruct (py_float (strip (skipn 6 text))); reflexivity.
Qed.

Lemma cmd_voice_eq (text : str) (s : session) (w : world) :
  cmd_voice text (s, w) =
  let v := strip (skipn 6 text) in
  match get_voice_style (engine w) v with
  | (Return sty, e) =>
    (write_empty_frame ;; ret Continue)
      (set_voice v sty s, add_stderr (LogVoiceChanged v) (set_engine e w))
  | (Raise x, e) =>
    (write_empty_frame ;; ret Continue)
      (s, add_stderr (LogVoiceError x) (set_engine e w))
  | (Interrupt, e) => (Interrupt, (s, set_engine e w))
  end.
Proof.
  unfold cmd_voice. cbv zeta. unfold bind at 1. unfold try_except.
  unfold bind at 1. unfold call_get_voice_style. cbn [fst snd].
  destruct (get_voice_style (engine w) (strip (skipn 6 text)))
    as [[sty|x|] e]; reflexivity.
Qed.

(** The acknowledgement is written, or the pipe was closed; the session
    is the same either way. *)
Lemma ack_cases (s : session) (w : world) :
  (exists w', (write_empty_frame ;; ret Continue) (s, w)
              = (Return Continue, (s, w'))) \/
  (exists w', (write_empty_frame ;; ret Continue) (s, w)
              = (Raise BrokenPipeError, (s, w'))).
Proof.
  unfold bind.
  destruct (write_empty_frame_cases s w) as [[w' E]|[w' E]];
    [left | right]; exists w'; rewrite E; reflexivity.
Qed.

(** The [except Exception] clause leaves the session alone. *)
Lemma handler_session (e : exception) (s : session) (w : world) :
  exists c w', handler e (s, w) = (c, (s, w')).
Proof.
  unfold handler. unfold bind at 1. unfold log. cbn [fst snd].
  destruct (write_empty_frame_cases s (add_stderr (LogError e) w))
    as [[w' E]|[w' E]]; rewrite E; eauto.
Qed.

(** ** Length-prefix policing *)

(** C2.  The length prefix is policed before the payload is touched.  A
    header announcing 0 bytes: nothing is written or logged, only the four
    header bytes are consumed and the loop reads the next header.  A header
    announcing more than 100000 bytes: the payload is left unread in the
    input, the condition is logged, the output grows by exactly the empty
    frame (four zero bytes) and the loop goes on. *)
Theorem length_prefix_policed (s : session) (w : world) :
  List.length (header w) = 4%nat ->
  (text_len w = 0 ->
   cycle (s, w) = (Continue, (s, consume 4 w)) /\
   stdout (consume 4 w) = stdout w /\
   stderr (consume 4 w) = stderr w /\
   stdin (consume 4 w) = skipn 4 (stdin w) /\
   forall fuel, loop (S fuel) (s, w) = loop fuel (s, consume 4 w)) /\
  (100000 < text_len w -> writable 1 w ->
   exists w',
     cycle (s, w) = (Continue, (s, w')) /\
     stdin w' = skipn 4 (stdin w) /\
     logged_since w w' = [LogTooLong (text_len w)] /\
     stdout w' = stdout w ++ [x00; x00; x00; x00] /\
     engine w' = engine w /\
     forall fuel, loop (S fuel) (s, w) = loop fuel (s, w')).
Proof.
  intros Hh. split.
  - intros H0.
    assert (E : cycle (s, w) = (Continue, (s, consume 4 w))).
    { unfold cycle. rewrite body_eq, Hh, H0. reflexivity. }
    repeat split; auto using loop_continue.
  - intros Hbig Hq.
    exists (emit (le32 0)
              (add_stderr (LogTooLong (text_len w)) (consume 4 w))).
    assert (E : cycle (s, w)
                = (Continue,
                   (s, emit (le32 0)
                         (add_stderr (LogTooLong (text_len w))
                                     (consume 4 w))))).
    { unfold cycle. rewrite body_eq, Hh.
      change (4 <? 4)%nat with false. cbv iota.
      replace (text_len w =? 0) with false
        by (symmetry; apply Z.eqb_neq; lia).
      replace (100000 <? text_len w) with true
        by (symmetry; apply Z.ltb_lt; lia).
      rewrite ack_ok by exact Hq. reflexivity. }
    repeat split; auto using loop_continue.
    apply logged_since_add. reflexivity.
Qed.

(** ** Dispatch *)

Lemma dispatch_voice (text : str) :
  startswith text (lit "VOICE:") = true -> dispatch text = cmd_voice text.
Proof.
  intros H. unfold dispatch.
  destruct (voice_dispatch text H) as (-> & ->). rewrite H. reflexivity.
Qed.

Lemma dispatch_lang (text : str) :
  startswith text (lit "LANG:") = true -> dispatch text = cmd_lang text.
Proof.
  intros H. unfold dispatch.
  destruct (lang_dispatch text H) as (-> & -> & ->). rewrite H. reflexivity.
Qed.

Lemma dispatch_speed (text : str) :
  startswith text (lit "SPEED:") = true -> dispatch text = cmd_speed text.
Proof.
  intros H. unfold dispatch.
  destruct (speed_dispatch text H) as (-> & -> & -> & ->). rewrite H.
  reflexivity.
Qed.

Lemma dispatch_synth (text : str) :
  is_command text = false -> dispatch text = synth text.
Proof.
  unfold is_command, dispatch. intros H.
  repeat (apply orb_false_iff in H; destruct H as [H ?]).
  rewrite H. repeat match goal with E : _ = false |- _ => rewrite E; clear E end.
  reflexivity.
Qed.

(** ** Responses to control commands *)

(** C3.  On an output stream that accepts the write: a payload starting
    with VOICE:, LANG: or SPEED: is answered by exactly the empty frame
    (for VOICE:, whenever the voice lookup returns or raises); the payload
    PING is answered by the five raw bytes PONG\n, whatever the session;
    the payload QUIT writes nothing at all (open stream or not). *)
Theorem control_command_responses (s : session) (w : world) (text : str) :
  request w text ->
  (text = lit "PING" -> writable 1 w ->
   exists w', cycle (s, w) = (Continue, (s, w')) /\
              stdout w' = stdout w ++ blit "PONG" ++ [x0a]) /\
  (text = lit "QUIT" ->
   exists w', cycle (s, w) = (Break, (s, w')) /\ stdout w' = stdout w) /\
  (startswith text (lit "VOICE:") = true ->
   fst (get_voice_style (engine w) (strip (skipn 6 text))) <> Interrupt ->
   writable 1 w ->
   exists s' w', cycle (s, w) = (Continue, (s', w')) /\
                 stdout w' = stdout w ++ [x00; x00; x00; x00]) /\
  (startswith text (lit "LANG:") = true
   \/ startswith text (lit "SPEED:") = true ->
   writable 1 w ->
   exists s' w', cycle (s, w) = (Continue, (s', w')) /\
                 stdout w' = stdout w ++ [x00; x00; x00; x00]).
Proof.
  intros R. rewrite (cycle_request s w text R).
  split; [|split; [|split]].
  - intros -> Hq. change (dispatch (lit "PING")) with cmd_ping.
    rewrite cmd_ping_ok by exact Hq. eexists; split; reflexivity.
  - intros ->. change (dispatch (lit "QUIT")) with cmd_quit.
    rewrite cmd_quit_eq. eexists; split; reflexivity.
  - intros Hv Hi Hq. rewrite (dispatch_voice text Hv), cmd_voice_eq.
    cbv zeta. change (engine (after_payload w)) with (engine w).
    destruct (get_voice_style (engine w) (strip (skipn 6 text)))
      as [[sty|x|] e]; [| |elim Hi; reflexivity];
      rewrite ack_ok by exact Hq; do 2 eexists; split; reflexivity.
  - intros [Hl|Hs] Hq.
    + rewrite (dispatch_lang text Hl), cmd_lang_eq.
      rewrite ack_ok by exact Hq. do 2 eexists; split; reflexivity.
    + rewrite (dispatch_speed text Hs), cmd_speed_eq.
      destruct (py_float (strip (skipn 6 text)));
        rewrite ack_ok by exact Hq; do 2 eexists; split; reflexivity.
Qed.

(** An acknowledged command: the session is what the command made it;
    on an open pipe the iteration continues and the output grows by the
    empty frame. *)
Lemma acked (s1 : session) (w1 : world) (c : control) (s' : session)
      (w' : world) :
  except_clauses ((write_empty_frame ;; ret Continue) (s1, w1))
  = (c, (s', w')) ->
  s' = s1 /\
  (writable 1 w1 -> c = Continue /\ w' = emit (le32 0) w1).
Proof.
  intros E. split.
  - destruct (ack_cases s1 w1) as [[w2 E2]|[w2 E2]]; rewrite E2 in E;
      cbn [except_clauses] in E.
    + congruence.
    + destruct (handler_session BrokenPipeError s1 w2) as (c3 & w3 & E3).
      congruence.
  - intros Hq. rewrite ack_ok in E by exact Hq. cbn [except_clauses] in E.
    split; congruence.
Qed.

(** ** The LANG: command *)

(** C9, as amended.  A request whose text starts with LANG: sets the
    language code to the text after the prefix with leading and trailing
    whitespace removed, unconditionally (no validation, and whether or not
    the acknowledgement can be written); on an output stream that accepts
    the write, the empty frame is sent and the loop continues. *)
Theorem lang_command_sets_stripped_language
        (s : session) (w : world) (text : str)
        (c : control) (s' : session) (w' : world) :
  request w text ->
  startswith text (lit "LANG:") = true ->
  cycle (s, w) = (c, (s', w')) ->
  lang s' = strip (skipn 5 text) /\
  s' = set_lang (strip (skipn 5 text)) s /\
  (writable 1 w ->
   c = Continue /\ stdout w' = stdout w ++ [x00; x00; x00; x00] /\
   logged_since w w' = [LogLangChanged (strip (skipn 5 text))]).
Proof.
  intros R Hl E.
  rewrite (cycle_request s w text R), (dispatch_lang text Hl), cmd_lang_eq
    in E.
  apply acked in E. destruct E as [-> Hw].
  split; [reflexivity | split; [reflexivity|]].
  intros Hq. destruct (Hw Hq) as [-> ->].
  repeat split. apply logged_since_add. reflexivity.
Qed.

(** ** The state-changing commands VOICE: and SPEED: *)

(** C5.  A VOICE: command whose lookup raises leaves the whole session
    (voice name and style included) as it was; one whose lookup returns a
    style sets the voice name and the style together.  A SPEED: command
    whose remainder [float] rejects leaves the session as it was; one that
    parses sets the speed to the parsed value.  In the four cases the
    client receives the same empty frame, on an output stream that accepts
    the write. *)
Theorem state_commands_atomic
        (s : session) (w : world) (text : str)
        (c : control) (s' : session) (w' : world) :
  request w text ->
  cycle (s, w) = (c, (s', w')) ->
  (startswith text (lit "VOICE:") = true ->
   let v := strip (skipn 6 text) in
   (forall x e, get_voice_style (engine w) v = (Raise x, e) ->
      s' = s /\ voice_name s' = voice_name s /\ style s' = style s /\
      (writable 1 w ->
       c = Continue /\ stdout w' = stdout w ++ [x00; x00; x00; x00])) /\
   (forall sty e, get_voice_style (engine w) v = (Return sty, e) ->
      s' = set_voice v sty s /\ voice_name s' = v /\ style s' = sty /\
      (writable 1 w ->
       c = Continue /\ stdout w' = stdout w ++ [x00; x00; x00; x00]))) /\
  (startswith text (lit "SPEED:") = true ->
   let r := strip (skipn 6 text) in
   (py_float r = None ->
      s' = s /\ speed s' = speed s /\
      (writable 1 w ->
       c = Continue /\ stdout w' = stdout w ++ [x00; x00; x00; x00])) /\
   (forall x, py_float r = Some x ->
      s' = set_speed x s /\ speed s' = x /\
      (writable 1 w ->
       c = Continue /\ stdout w' = stdout w ++ [x00; x00; x00; x00]))).
Proof.
  intros R E. rewrite (cycle_request s w text R) in E. split.
  - intros Hv v. rewrite (dispatch_voice text Hv), cmd_voice_eq in E.
    cbv zeta in E. change (engine (after_payload w)) with (engine w) in E.
    fold v in E.
    split; [intros x e G | intros sty e G]; rewrite G in E;
      apply acked in E; destruct E as [-> Hw];
      (split; [reflexivity | split; [reflexivity|]]);
      try (split; [reflexivity|]);
      intros Hq; destruct (Hw Hq) as [Hc ->]; auto.
  - intros Hs r. rewrite (dispatch_speed text Hs), cmd_speed_eq in E.
    fold r in E.
    split; [intros G | intros x G]; rewrite G in E;
      apply acked in E; destruct E as [-> Hw];
      (split; [reflexivity | split; [reflexivity|]]);
      try (split; [reflexivity|]);
      intros Hq; destruct (Hw Hq) as [Hc ->]; auto.
Qed.

(** ** Synthesis requests *)

Lemma synth_eq (text : str) (s : session) (w : world) :
  synth text (s, w) =
  match synthesize (engine w) text (style s) (lang s) (total_steps s)
                   (speed s) with
  | (Return (wav, duration), e) =>
    let pcm := tobytes (to_pcm16 (flatten wav)) in
    match nth_error duration 0 with
    | None => (Raise IndexError, (s, set_engine e w))
    | Some d0 =>
      let w1 := add_stderr (LogSynth (List.length text) d0 (List.length pcm))
                           (set_engine e w) in
      match pack_I (Z.of_nat (List.length pcm)) with
      | None => (Raise StructError, (s, w1))
      | Some hdr =>
        (stdout_write hdr ;; stdout_write pcm ;; stdout_flush ;;
         ret Continue) (s, w1)
      end
    end
  | (Raise x, e) => (Raise x, (s, set_engine e w))
  | (Interrupt, e) => (Interrupt, (s, set_engine e w))
  end.
Proof.
  unfold synth. unfold bind at 1. unfold call_synthesize. cbn [fst snd].
  destruct (synthesize (engine w) text (style s) (lang s) (total_steps s)
                       (speed s)) as [[[wav duration]|x|] e];
    try reflexivity.
  cbv zeta. unfold bind at 1. unfold index0, of_option at 1.
  destruct (nth_error duration 0) as [d0|]; [|reflexivity].
  unfold ret at 1. unfold bind at 1. unfold log at 1. cbn [fst snd].
  unfold bind at 1. unfold of_option.
  destruct (pack_I _); reflexivity.
Qed.

Lemma stdout_write_ok (b : bytes) (s : session) (w : world) :
  writable 0 w -> stdout_write b (s, w) = (Return tt, (s, emit b w)).
Proof.
  unfold writable, stdout_write. cbn [fst snd].
  destruct (stdout_quota w) as [[|q]|]; intros Hq; try reflexivity; lia.
Qed.

Lemma stdout_flush_ok (s : session) (w : world) :
  writable 0 w -> stdout_flush (s, w) = (Return tt, (s, w)).
Proof.
  unfold writable, stdout_flush. cbn [fst snd].
  destruct (stdout_quota w) as [[|q]|]; intros Hq; try reflexivity; lia.
Qed.

Lemma writable_emit (k : nat) (b : bytes) (w : world) :
  writable (S k) w -> writable k (emit b w).
Proof.
  unfold writable, emit. cbn.
  destruct (stdout_quota w) as [[|q]|]; cbn; intros Hq; trivial; lia.
Qed.

Lemma send_frame_ok (hdr pcm : bytes) (s : session) (w : world) :
  writable 2 w ->
  (stdout_write hdr ;; stdout_write pcm ;; stdout_flush ;; ret Continue)
    (s, w)
  = (Return Continue, (s, emit pcm (emit hdr w))).
Proof.
  intros Hq.
  pose proof (writable_emit 1 hdr w Hq) as H1.
  pose proof (writable_emit 0 pcm _ H1) as H0.
  unfold bind.
  rewrite stdout_write_ok
    by (unfold writable in *; destruct (stdout_quota w); [lia|trivial]).
  rewrite stdout_write_ok
    by (unfold writable in *;
        destruct (stdout_quota (emit hdr w)); [lia|trivial]).
  rewrite stdout_flush_ok by exact H0. reflexivity.
Qed.

Lemma writable_weaken (k : nat) (w : world) :
  writable (S k) w -> writable k w.
Proof. unfold writable. destruct (stdout_quota w); [lia | trivial]. Qed.

Lemma to_pcm16_length (samples : list float32) :
  List.length (to_pcm16 samples) = List.length samples.
Proof. apply length_map. Qed.

(** C1.  A request within the size limit whose payload decodes to a text
    that is none of the control commands is answered, when the engine call
    is not interrupted and the output stream accepts the writes, by one
    frame: a four-byte header followed by [pcm], where the header read as
    a little-endian unsigned integer is the number of bytes of [pcm], and
    that number is even.  (When synthesis raises, the frame is the empty
    one.) *)
Theorem synthesis_frame_length (s : session) (w : world) (text : str) :
  request w text ->
  is_command text = false ->
  fst (synthesize (engine w) text (style s) (lang s) (total_steps s)
                  (speed s)) <> Interrupt ->
  writable 2 w ->
  exists (hdr pcm : bytes) (w' : world),
    cycle (s, w) = (Continue, (s, w')) /\
    stdout w' = stdout w ++ hdr ++ pcm /\
    List.length hdr = 4%nat /\
    unpack_I hdr = Z.of_nat (List.length pcm) /\
    Nat.Even (List.length pcm).
Proof.
  intros R Hc Hi Hq.
  rewrite (cycle_request s w text R), (dispatch_synth text Hc), synth_eq.
  change (engine (after_payload w)) with (engine w).
  pose proof (writable_weaken 1 w Hq) as Hq1.
  destruct (synthesize (engine w) text (style s) (lang s) (total_steps s)
                       (speed s)) as [[[wav duration]|x|] e];
    [| |elim Hi; reflexivity].
  - cbv zeta. destruct (nth_error duration 0) as [d0|].
    + destruct (pack_I _) as [hdr|] eqn:P.
      * rewrite send_frame_ok by exact Hq. cbn [except_clauses].
        unfold pack_I in P.
        destruct (_ && _) eqn:B in P; [|discriminate].
        injection P as <-. apply andb_true_iff in B.
        destruct B as [B1 B2]. apply Z.leb_le in B1. apply Z.ltb_lt in B2.
        do 3 eexists. split; [reflexivity|].
        split; [cbn; rewrite <- app_assoc; reflexivity|].
        split; [reflexivity|].
        split; [apply unpack_I_le32; lia|].
        rewrite tobytes_length. exists (List.length (to_pcm16 (flatten wav))).
        reflexivity.
      * cbn [except_clauses]. rewrite handler_ok by exact Hq1.
        exists (le32 0), []; eexists. split; [reflexivity|].
        split; [reflexivity|].
        repeat split. exists 0%nat. reflexivity.
    + cbn [except_clauses]. rewrite handler_ok by exact Hq1.
      exists (le32 0), []; eexists. split; [reflexivity|].
      split; [reflexivity|].
      repeat split. exists 0%nat. reflexivity.
  - cbn [except_clauses]. rewrite handler_ok by exact Hq1.
    exists (le32 0), []; eexists. split; [reflexivity|].
    split; [reflexivity|].
    repeat split. exists 0%nat. reflexivity.
Qed.

(** ** Relations every step of an iteration respects

    [R] is a preorder on states that each elementary state change of the
    daemon respects.  Then every command, the handler, a whole iteration
    and the loop respect it. *)
Section Respects.
Variable R : state -> state -> Prop.
Hypothesis R_refl : forall st, R st st.
Hypothesis R_trans : forall a b c, R a b -> R b c -> R a c.
Hypothesis R_read : forall s w n, R (s, w) (s, consume n w).
Hypothesis R_emit : forall s w b, R (s, w) (s, emit b w).
Hypothesis R_log :
  forall s w l, is_speed_changed l = false -> R (s, w) (s, add_stderr l w).
Hypothesis R_engine : forall s w e, R (s, w) (s, set_engine e w).
Hypothesis R_voice : forall s w v sty, R (s, w) (set_voice v sty s, w).
Hypothesis R_lang : forall s w l, R (s, w) (set_lang l s, w).
Hypothesis R_speed :
  forall s w x,
    R (s, w) (set_speed x s, add_stderr (LogSpeedChanged x) w).

Lemma respects_ret {A : Type} (a : A) : respects R (ret a).
Proof. intros st. apply R_refl. Qed.

Lemma respects_of_option {A : Type} (e : exception) (o : option A) :
  respects R (of_option e o).
Proof. intros st. destruct o; apply R_refl. Qed.

Lemma respects_seq {A B : Type} (m : M A) (k : A -> M B) :
  respects R m -> (forall a, respects R (k a)) -> respects R (bind m k).
Proof.
  intros Hm Hk st. unfold bind. specialize (Hm st).
  destruct (m st) as [[a|e|] st1]; cbn [snd] in *; auto.
  eapply R_trans; [exact Hm | apply Hk].
Qed.

Lemma respects_try {A : Type} (c : exception -> bool) (m : M A)
      (h : exception -> M A) :
  respects R m -> (forall e, respects R (h e)) -> respects R (try_except c m h).
Proof.
  intros Hm Hh st. unfold try_except. specialize (Hm st).
  destruct (m st) as [[a|e|] st1]; cbn [snd] in *; auto.
  destruct (c e); cbn [snd]; auto.
  eapply R_trans; [exact Hm | apply Hh].
Qed.

Lemma respects_log (l : log_line) :
  is_speed_changed l = false -> respects R (log l).
Proof. intros H [s w]. apply R_log, H. Qed.

Lemma respects_write (b : bytes) : respects R (stdout_write b).
Proof.
  intros [s w]. unfold stdout_write. cbn [fst snd].
  destruct (stdout_quota w) as [[|q]|]; cbn [snd]; auto.
Qed.

Lemma respects_flush : respects R stdout_flush.
Proof.
  intros [s w]. unfold stdout_flush. cbn [fst snd].
  destruct (stdout_quota w) as [[|q]|]; cbn [snd]; auto.
Qed.

Lemma respects_read (n : nat) : respects R (stdin_read n).
Proof. intros [s w]. apply R_read. Qed.

Lemma respects_get_voice_style (v : str) :
  respects R (call_get_voice_style v).
Proof.
  intros [s w]. unfold call_get_voice_style. cbn [fst snd].
  destruct (get_voice_style (engine w) v). apply R_engine.
Qed.

Lemma respects_synthesize (text : str) : respects R (call_synthesize text).
Proof.
  intros [s w]. unfold call_synthesize. cbn [fst snd].
  destruct (synthesize _ _ _ _ _ _). apply R_engine.
Qed.

Lemma respects_write_empty_frame : respects R write_empty_frame.
Proof.
  unfold write_empty_frame.
  repeat (apply respects_seq; [|intros ?]);
    auto using respects_of_option, respects_write, respects_flush.
Qed.

Lemma respects_set_voice (v : str) (sty : Style) :
  respects R (modify_session (set_voice v sty)).
Proof. intros [s w]. apply R_voice. Qed.

Lemma respects_set_lang (l : str) :
  respects R (modify_session (set_lang l)).
Proof. intros [s w]. apply R_lang. Qed.

Lemma respects_set_speed (x : float) :
  respects R (modify_session (set_speed x) ;; log (LogSpeedChanged x)).
Proof. intros [s w]. apply R_speed. Qed.

#[local] Hint Resolve respects_ret respects_of_option respects_log respects_write
  respects_flush respects_read respects_get_voice_style
  respects_synthesize respects_write_empty_frame respects_set_voice
  respects_set_lang respects_set_speed : respects.

Ltac respects_steps :=
  repeat first
    [ solve [auto with respects]
    | apply respects_try; [|intros ?]
    | apply respects_seq; [|intros ?] ].

Lemma respects_ack : respects R (write_empty_frame ;; ret Continue).
Proof. respects_steps. Qed.

Lemma respects_cmd_ping : respects R cmd_ping.
Proof. unfold cmd_ping. respects_steps. Qed.

Lemma respects_cmd_quit : respects R cmd_quit.
Proof. unfold cmd_quit. respects_steps. Qed.

Lemma respects_cmd_voice (text : str) : respects R (cmd_voice text).
Proof. unfold cmd_voice. respects_steps. Qed.

Lemma respects_cmd_lang (text : str) : respects R (cmd_lang text).
Proof. unfold cmd_lang. respects_steps. Qed.

Lemma respects_cmd_speed (text : str) : respects R (cmd_speed text).
Proof. unfold cmd_speed. respects_steps. Qed.

Lemma respects_synth (text : str) : respects R (synth text).
Proof.
  unfold synth. apply respects_seq; [auto with respects|].
  intros [wav duration]. unfold index0. respects_steps.
Qed.

Lemma respects_dispatch (text : str) : respects R (dispatch text).
Proof.
  unfold dispatch.
  destruct (str_eqb text (lit "PING")); [apply respects_cmd_ping|].
  destruct (str_eqb text (lit "QUIT")); [apply respects_cmd_quit|].
  destruct (startswith text (lit "VOICE:")); [apply respects_cmd_voice|].
  destruct (startswith text (lit "LANG:")); [apply respects_cmd_lang|].
  destruct (startswith text (lit "SPEED:")); [apply respects_cmd_speed|].
  apply respects_synth.
Qed.

Lemma respects_body : respects R body.
Proof.
  unfold body. apply respects_seq; [auto with respects|]. intros hd.
  destruct (_ <? _)%nat; [auto with respects|].
  destruct (_ =? _); [auto with respects|].
  destruct (_ <? _); respects_steps.
  apply respects_dispatch.
Qed.

Lemma respects_handler (e : exception) (st : state) :
  R st (snd (handler e st)).
Proof.
  unfold handler.
  assert (H : respects R (log (LogError e) ;; write_empty_frame))
    by respects_steps.
  specialize (H st).
  destruct ((log (LogError e) ;; write_empty_frame) st) as [[u|x|] st'];
    exact H.
Qed.

Lemma respects_except_clauses (st : state) (r : outcome control * state) :
  R st (snd r) -> R st (snd (except_clauses r)).
Proof.
  destruct r as [[c|e|] st']; cbn [snd except_clauses]; auto.
  intros H. eapply R_trans; [exact H | apply respects_handler].
Qed.

Lemma respects_cycle (st : state) : R st (snd (cycle st)).
Proof. apply respects_except_clauses, respects_body. Qed.

(** From the state in which the header has been read. *)
Lemma respects_cycle_after_header (s : session) (w : world) :
  R (s, consume 4 w) (snd (cycle (s, w))).
Proof.
  unfold cycle. rewrite body_eq.
  destruct (_ <? _)%nat; [destruct (read_returns 4 w); apply R_refl|].
  destruct (_ =? _); [apply R_refl|].
  apply respects_except_clauses.
  destruct (_ <? _).
  - eapply R_trans;
      [apply (R_log _ _ (LogTooLong (text_len w))); reflexivity|].
    assert (H : respects R (write_empty_frame ;; ret Continue))
      by respects_steps.
    apply H.
  - eapply R_trans; [apply (R_read _ _ (Z.to_nat (text_len w)))|].
    fold (after_payload w).
    destruct (read_returns _ _); [|apply R_refl].
    destruct (decode (payload w)); [apply respects_dispatch | apply R_refl].
Qed.

Lemma respects_loop (fuel : nat) (st st' : state) :
  loop fuel st = Some st' -> R st st'.
Proof.
  revert st. induction fuel as [|fuel IH]; intros st E; [discriminate|].
  cbn [loop] in E. pose proof (respects_cycle st) as H.
  destruct (cycle st) as [[|] st1]; cbn [snd] in H.
  - eapply R_trans; [exact H | apply IH, E].
  - injection E as <-. exact H.
Qed.
End Respects.

(** ** Termination of the loop *)

Lemma stdin_shrinks_cycle (s : session) (w : world) :
  stdin_shrinks (s, consume 4 w) (snd (cycle (s, w))).
Proof.
  apply respects_cycle_after_header; unfold stdin_shrinks; cbn [snd];
    intros; try lia; cbn; rewrite ?length_skipn; lia.
Qed.

Lemma header_length (w : world) :
  (List.length (header w) <= 4)%nat /\
  (List.length (header w) = 4%nat <-> (4 <= List.length (stdin w))%nat).
Proof. unfold header. rewrite length_firstn. lia. Qed.

Lemma cycle_short_header (s : session) (w : world) :
  (List.length (header w) < 4)%nat ->
  cycle (s, w) = (Break, (s, consume 4 w)).
Proof.
  intros H. unfold cycle. rewrite body_eq.
  apply Nat.ltb_lt in H. rewrite H.
  destruct (read_returns 4 w); reflexivity.
Qed.

(** An iteration that continues has read at least a whole header. *)
Lemma cycle_consumes (s : session) (w : world) (st' : state) :
  cycle (s, w) = (Continue, st') ->
  (List.length (stdin (snd st')) + 4 <= List.length (stdin w))%nat.
Proof.
  intros E. pose proof (stdin_shrinks_cycle s w) as H.
  rewrite E in H. unfold stdin_shrinks in H. cbn [snd] in H.
  change (stdin (consume 4 w)) with (skipn 4 (stdin w)) in H.
  rewrite length_skipn in H.
  destruct (header_length w) as [Hle Hiff].
  destruct (Nat.eq_dec (List.length (header w)) 4) as [H4|H4].
  - apply Hiff in H4. lia.
  - rewrite cycle_short_header in E by lia. discriminate.
Qed.

Lemma loop_terminates (fuel : nat) (st : state) :
  (List.length (stdin (snd st)) < fuel)%nat ->
  exists st', loop fuel st = Some st'.
Proof.
  revert st. induction fuel as [|fuel IH]; intros [s w] H; [lia|].
  cbn [loop]. destruct (cycle (s, w)) as [[|] st1] eqn:E; [|eauto].
  apply IH. apply cycle_consumes in E. cbn [snd] in H. lia.
Qed.

(** More fuel than needed changes nothing. *)
Lemma loop_fuel_irrelevant (fuel fuel' : nat) (st st' : state) :
  loop fuel st = Some st' -> (fuel <= fuel')%nat ->
  loop fuel' st = Some st'.
Proof.
  revert fuel' st. induction fuel as [|fuel IH]; intros fuel' st E Hle;
    [discriminate|].
  destruct fuel' as [|fuel']; [lia|]. cbn [loop] in *.
  destruct (cycle st) as [[|] st1]; [|exact E].
  apply IH; [exact E | lia].
Qed.

(** [main] always ends: the fuel it gives the loop is enough. *)
Theorem main_total (argv : list str) (w : world) :
  exists r, main argv w = Some r.
Proof.
  unfold main. destruct (startup argv w) as [[s|e|] w']; eauto.
  destruct (loop_terminates (S (List.length (stdin w'))) (s, w'))
    as [[s' w''] E]; [cbn; lia|].
  rewrite E. eauto.
Qed.

(** ** Per-request errors *)

(** C4.  On an output stream that accepts the write, a request within the
    size limit whose payload has been read and is not valid UTF-8, and a
    synthesis request during which the engine raises an exception, are
    handled alike: the error is logged, the output grows by exactly the
    empty frame, the session is untouched and the loop goes on with the
    next frame. *)
Theorem request_errors_contained (s : session) (w : world) :
  List.length (header w) = 4%nat ->
  0 < text_len w <= 100000 ->
  payload_read w ->
  writable 1 w ->
  (decode (payload w) = None ->
   exists w',
     cycle (s, w) = (Continue, (s, w')) /\
     logged_since w w' = [LogError UnicodeDecodeError] /\
     stdout w' = stdout w ++ [x00; x00; x00; x00] /\
     forall fuel, loop (S fuel) (s, w) = loop fuel (s, w')) /\
  (forall text x e,
     decode (payload w) = Some text ->
     is_command text = false ->
     synthesize (engine w) text (style s) (lang s) (total_steps s) (speed s)
     = (Raise x, e) ->
     exists w',
       cycle (s, w) = (Continue, (s, w')) /\
       logged_since w w' = [LogError x] /\
       stdout w' = stdout w ++ [x00; x00; x00; x00] /\
       forall fuel, loop (S fuel) (s, w) = loop fuel (s, w')).
Proof.
  intros Hh Hl Hp Hq. split.
  - intros Hd.
    assert (E : cycle (s, w)
                = (Continue,
                   (s, emit (le32 0)
                         (add_stderr (LogError UnicodeDecodeError)
                                     (after_payload w))))).
    { unfold cycle. rewrite (body_payload s w Hh Hl Hp), Hd.
      cbn [except_clauses]. apply handler_ok. exact Hq. }
    eexists. split; [exact E|]. split; [|split].
    + apply logged_since_add. reflexivity.
    + reflexivity.
    + intros fuel. apply loop_continue, E.
  - intros text x e Hd Hc Hs.
    assert (E : cycle (s, w)
                = (Continue,
                   (s, emit (le32 0)
                         (add_stderr (LogError x)
                            (set_engine e (after_payload w)))))).
    { rewrite (cycle_request s w text) by (repeat split; auto; lia).
      rewrite (dispatch_synth text Hc), synth_eq.
      change (engine (after_payload w)) with (engine w). rewrite Hs.
      cbn [except_clauses]. apply handler_ok. exact Hq. }
    eexists. split; [exact E|]. split; [|split].
    + apply logged_since_add. reflexivity.
    + reflexivity.
    + intros fuel. apply loop_continue, E.
Qed.

(** ** How an iteration may end *)









Lemma dispatch_cases (text : str) :
  (text = lit "PING" /\ dispatch text = cmd_ping) \/
  (text = lit "QUIT" /\ dispatch text = cmd_quit) \/
  (startswith text (lit "VOICE:") = true /\ dispatch text = cmd_voice text)
  \/
  (startswith text (lit "LANG:") = true /\ dispatch text = cmd_lang text)
  \/
  (startswith text (lit "SPEED:") = true /\ dispatch text = cmd_speed text)
  \/
  (is_command text = false /\ dispatch text = synth text).
Proof.
  destruct (str_eqb text (lit "PING")) eqn:E1.
  { left. apply str_eqb_eq in E1. subst. auto. }
  destruct (str_eqb text (lit "QUIT")) eqn:E2.
  { right; left. apply str_eqb_eq in E2. subst. auto. }
  destruct (startswith text (lit "VOICE:")) eqn:E3.
  { right; right; left. auto using dispatch_voice. }
  destruct (startswith text (lit "LANG:")) eqn:E4.
  { do 3 right; left. auto using dispatch_lang. }
  destruct (startswith text (lit "SPEED:")) eqn:E5.
  { do 4 right; left. auto using dispatch_speed. }
  do 5 right.
  assert (Hc : is_command text = false)
    by (unfold is_command; rewrite E1, E2, E3, E4, E5; reflexivity).
  auto using dispatch_synth.
Qed.


Lemma unpack_le_nonneg (b : bytes) : 0 <= unpack_le b.
Proof.
  induction b as [|x b IH]; cbn [unpack_le]; [lia|].
  unfold Z_of_byte. lia.
Qed.

Lemma text_len_nonneg (w : world) : 0 <= text_len w.
Proof. apply unpack_le_nonneg. Qed.

(** The ways through the body before dispatch, dispatch, and a read
    that is interrupted. *)
Lemma body_cases (s : session) (w : world) :
  (end_of_stream w /\ body (s, w) = (Return Break, (s, consume 4 w))) \/
  (List.length (header w) = 4%nat /\ text_len w = 0 /\
   body (s, w) = (Return Continue, (s, consume 4 w))) \/
  (List.length (header w) = 4%nat /\ 100000 < text_len w /\
   body (s, w) =
   (write_empty_frame ;; ret Continue)
     (s, add_stderr (LogTooLong (text_len w)) (consume 4 w))) \/
  (List.length (header w) = 4%nat /\ 0 < text_len w <= 100000 /\
   decode (payload w) = None /\
   body (s, w) = (Raise UnicodeDecodeError, (s, after_payload w))) \/
  (exists text, request w text /\
                body (s, w) = dispatch text (s, after_payload w)) \/
  (interrupted_read w /\
   exists w1, body (s, w) = (Interrupt, (s, w1)) /\
              (w1 = consume 4 w \/ w1 = after_payload w)).
Proof.
  rewrite body_eq.
  unfold end_of_stream, interrupted_read, short_header, request,
    payload_read.
  destruct (header_length w) as [Hle Hiff].
  pose proof (text_len_nonneg w) as H0.
  destruct (List.length (header w) <? 4)%nat eqn:E1.
  { apply Nat.ltb_lt in E1. unfold read_returns.
    replace (4 <=? List.length (stdin w))%nat with false
      by (symmetry; apply Nat.leb_gt; lia).
    destruct (stdin_end w) eqn:Se; cbn [orb].
    - left. auto.
    - do 5 right. split; [auto|]. exists (consume 4 w). auto. }
  apply Nat.ltb_ge in E1. right.
  destruct (text_len w =? 0) eqn:E2.
  { apply Z.eqb_eq in E2. left. repeat split; auto; lia. }
  apply Z.eqb_neq in E2. right.
  destruct (100000 <? text_len w) eqn:E3.
  { apply Z.ltb_lt in E3. left. repeat split; auto; lia. }
  apply Z.ltb_ge in E3. right.
  destruct (read_returns (Z.to_nat (text_len w)) (consume 4 w)) eqn:E5.
  - destruct (decode (payload w)) as [text|] eqn:E4.
    + right; left. exists text. repeat split; auto; lia.
    + left. repeat split; auto; lia.
  - do 2 right. unfold read_returns in E5.
    apply orb_false_iff in E5. destruct E5 as [E5 E6].
    apply Nat.leb_gt in E5.
    change (stdin (consume 4 w)) with (skipn 4 (stdin w)) in E5.
    rewrite length_skipn in E5.
    change (stdin_end (consume 4 w)) with (stdin_end w) in E6.
    split.
    + split; [destruct (stdin_end w); [discriminate E6 | reflexivity]|].
      right. repeat split; lia.
    + exists (after_payload w). auto.
Qed.

(** What an interrupted read leaves. *)
Lemma cycle_interrupted_read (s : session) (w : world) :
  interrupted_read w ->
  exists w1, cycle (s, w) = (Break, (s, w1)) /\
             stdout w1 = stdout w /\ stdout_quota w1 = stdout_quota w /\
             stderr w1 = stderr w /\ engine w1 = engine w.
Proof.
  intros [Hs Hi]. unfold cycle. rewrite body_eq.
  unfold short_header in Hi. unfold read_returns. rewrite Hs.
  destruct (header_length w) as [Hle Hiff].
  destruct Hi as [Hi|(Hh & Hl & Hn)].
  - replace (List.length (header w) <? 4)%nat with true
      by (symmetry; apply Nat.ltb_lt; exact Hi).
    replace (4 <=? List.length (stdin w))%nat with false
      by (symmetry; apply Nat.leb_gt; lia).
    exists (consume 4 w). repeat split.
  - rewrite Hh. change (4 <? 4)%nat with false. cbv iota.
    replace (text_len w =? 0) with false by (symmetry; apply Z.eqb_neq; lia).
    replace (100000 <? text_len w) with false
      by (symmetry; apply Z.ltb_ge; lia).
    change (stdin (consume 4 w)) with (skipn 4 (stdin w)).
    change (stdin_end (consume 4 w)) with (stdin_end w). rewrite Hs.
    rewrite length_skipn.
    replace (Z.to_nat (text_len w) <=? List.length (stdin w) - 4)%nat
      with false by (symmetry; apply Nat.leb_gt; lia).
    exists (after_payload w). repeat split.
Qed.



Lemma writable_dec (k : nat) (w : world) : writable k w \/ ~ writable k w.
Proof.
  unfold writable. destruct (stdout_quota w) as [q|]; [lia | auto].
Qed.


(** C10.  When the body of an iteration has raised an exception, the
    handler logs it and writes the empty frame.  If that write itself
    raises, the iteration breaks out of the loop and no further frame is
    read; and conversely an iteration whose body raised an exception ends
    the loop only if that write raised. *)
Theorem error_frame_write_failure
        (s : session) (w : world) (e : exception) (st1 : state) :
  body (s, w) = (Raise e, st1) ->
  let st2 := (fst st1, add_stderr (LogError e) (snd st1)) in
  ((exists e' st3, write_empty_frame st2 = (Raise e', st3)) ->
   exists st', cycle (s, w) = (Break, st') /\
               forall fuel, loop (S fuel) (s, w) = Some st') /\
  (fst (cycle (s, w)) = Break ->
   exists e' st3, write_empty_frame st2 = (Raise e', st3)).
Proof.
  intros B st2.
  assert (C : cycle (s, w)
              = match write_empty_frame st2 with
                | (Return _, st') => (Continue, st')
                | (_, st') => (Break, st')
                end).
  { unfold cycle. rewrite B. destruct st1 as [s1 w1]. reflexivity. }
  destruct st2 as [s2 w2].
  destruct (write_empty_frame_cases s2 w2) as [[w' E]|[w' E]];
    rewrite E in C; rewrite C, E; cbn [fst].
  - split; [intros (e' & st3 & [=]) | discriminate].
  - split; [|eauto]. intros _. exists (s2, w'). split; [reflexivity|].
    intros fuel. apply loop_break, C.
Qed.



(** ** Leaving the loop *)


(** ** The speed of the session *)

Lemma announced_speeds_app (l1 l2 : list log_line) :
  announced_speeds (l1 ++ l2) = announced_speeds l1 ++ announced_speeds l2.
Proof.
  induction l1 as [|x l1 IH]; [reflexivity|].
  destruct x; cbn; rewrite IH; reflexivity.
Qed.

Lemma last_cons_default {A : Type} (x : A) (l : list A) (d d' : A) :
  last (x :: l) d = last (x :: l) d'.
Proof.
  revert x. induction l as [|y l IH]; intros x; [reflexivity|].
  exact (IH y).
Qed.

Lemma last_app {A : Type} (a b : list A) (d : A) :
  last (a ++ b) d = last b (last a d).
Proof.
  revert d. induction a as [|x a IH]; intros d; [reflexivity|].
  destruct a as [|y a].
  - destruct b as [|z b]; [reflexivity|].
    exact (last_cons_default z b d x).
  - exact (IH d).
Qed.

Lemma last_in_or_default {A : Type} (l : list A) (d : A) :
  last l d = d \/ In (last l d) l.
Proof.
  induction l as [|x l IH]; [left; reflexivity|].
  destruct l as [|y l]; [right; left; reflexivity|].
  right. right. destruct IH as [IH|IH]; [|exact IH].
  change (last (x :: y :: l) d) with (last (y :: l) d).
  destruct (exists_last (l := y :: l) ltac:(discriminate)) as (l' & z & E).
  rewrite E. rewrite last_last. apply in_or_app. right. left. reflexivity.
Qed.

Lemma announced_speeds_in (l : list log_line) (x : float) :
  In x (announced_speeds l) <-> In (LogSpeedChanged x) l.
Proof.
  induction l as [|y l IH]; [reflexivity|].
  destruct y; cbn; rewrite IH;
    try (split; [auto | intros [C|H]; [discriminate C | exact H]]).
  split; intros [H|H]; auto; [left; congruence | left; congruence].
Qed.

Lemma speed_follows_log_refl (st : state) : speed_follows_log st st.
Proof. exists []. rewrite app_nil_r. auto. Qed.

Lemma speed_follows_log_trans (a b c : state) :
  speed_follows_log a b -> speed_follows_log b c -> speed_follows_log a c.
Proof.
  intros (l1 & E1 & H1) (l2 & E2 & H2). exists (l1 ++ l2). split.
  - rewrite E2, E1, app_assoc. reflexivity.
  - rewrite announced_speeds_app, last_app, <- H1. exact H2.
Qed.

(** After a run of the loop the speed is the last one announced. *)
Lemma loop_speed_follows_log (fuel : nat) (st st' : state) :
  loop fuel st = Some st' -> speed_follows_log st st'.
Proof.
  apply (respects_loop speed_follows_log speed_follows_log_refl
                       speed_follows_log_trans);
    intros;
    match goal with
    | |- speed_follows_log _ (_, add_stderr ?l _) =>
      exists [l]; split; [reflexivity|];
      first [ reflexivity
            | destruct l; try reflexivity;
              match goal with H : _ = false |- _ => discriminate H end ]
    | |- _ => exists []; cbn; rewrite app_nil_r; auto
    end.
Qed.

Ltac same_speed_step := unfold same_speed; intros; cbn; congruence.

Lemma same_speed_settled (m : M control) (s : session) (w : world) :
  respects same_speed m ->
  same_speed (s, w) (snd (except_clauses (m (s, w)))).
Proof.
  intros H. apply respects_except_clauses; try same_speed_step. apply H.
Qed.

(** An iteration leaves the speed alone unless it is an accepted SPEED:
    command, which sets it to the parsed value. *)
Lemma cycle_speed (s : session) (w : world) (c : control) (s' : session)
      (w' : world) :
  cycle (s, w) = (c, (s', w')) ->
  speed s' = speed s \/
  exists text x,
    request w text /\ startswith text (lit "SPEED:") = true /\
    py_float (strip (skipn 6 text)) = Some x /\ speed s' = x.
Proof.
  intros E. unfold cycle in E.
  destruct (body_cases s w)
    as [[_ H]|[(_ & _ & H)|[(_ & _ & H)|[(_ & _ & _ & H)
       |[(text & R & H)|(_ & w1 & H & _)]]]]];
    rewrite H in E.
  6:{ injection E as _ <- _. auto. }
  - injection E as _ <- _. auto.
  - injection E as _ <- _. auto.
  - apply acked in E. destruct E as [-> _]. auto.
  - cbn [except_clauses] in E.
    destruct (handler_session UnicodeDecodeError s (after_payload w))
      as (c1 & w1 & E1).
    rewrite E1 in E. injection E as _ <- _. auto.
  - assert (K : forall m, respects same_speed m -> dispatch text = m ->
                          speed s' = speed s).
    { intros m Hm D. rewrite D in E.
      pose proof (same_speed_settled m s (after_payload w) Hm) as S.
      rewrite E in S. exact S. }
    destruct (dispatch_cases text)
      as [[_ D]|[[_ D]|[[_ D]|[[_ D]|[[Hs D]|[_ D]]]]]].
    + left. apply (K _ (respects_cmd_ping same_speed
                          ltac:(same_speed_step) ltac:(same_speed_step)
                          ltac:(same_speed_step)) D).
    + left. apply (K _ (respects_cmd_quit same_speed
                          ltac:(same_speed_step) ltac:(same_speed_step)
                          ltac:(same_speed_step)) D).
    + left. refine (K _ _ D).
      apply respects_cmd_voice; same_speed_step.
    + left. refine (K _ _ D).
      apply respects_cmd_lang; same_speed_step.
    + rewrite D, cmd_speed_eq in E.
      destruct (py_float (strip (skipn 6 text))) as [x|] eqn:F;
        apply acked in E; destruct E as [-> _]; [|auto].
      right. exists text, x. auto.
    + left. refine (K _ _ D).
      apply respects_synth; same_speed_step.
Qed.

Lemma log_grows_trans (a b c : state) :
  log_grows a b -> log_grows b c -> log_grows a c.
Proof.
  intros [l1 E1] [l2 E2]. exists (l1 ++ l2).
  rewrite E2, E1, app_assoc. reflexivity.
Qed.

Ltac log_grows_step :=
  first [ exact log_grows_trans
        | intros; exists []; cbn; rewrite app_nil_r; reflexivity
        | intros; eexists; reflexivity ].

Lemma log_grows_ack (st : state) :
  log_grows st (snd (except_clauses ((write_empty_frame ;; ret Continue) st))).
Proof.
  apply respects_except_clauses; try log_grows_step.
  apply respects_ack; log_grows_step.
Qed.

(** An accepted SPEED: command sets the speed and announces it. *)
Lemma cycle_speed_accepted (s : session) (w : world) (text : str)
      (x : float) (c : control) (s' : session) (w' : world) :
  request w text ->
  startswith text (lit "SPEED:") = true ->
  py_float (strip (skipn 6 text)) = Some x ->
  cycle (s, w) = (c, (s', w')) ->
  speed s' = x /\ In (LogSpeedChanged x) (logged_since w w').
Proof.
  intros R Hs F E.
  rewrite (cycle_request s w text R), (dispatch_speed text Hs), cmd_speed_eq,
    F in E.
  pose proof (log_grows_ack
                (set_speed x s,
                 add_stderr (LogSpeedChanged x) (after_payload w))) as [l G].
  rewrite E in G. cbn [snd stderr add_stderr] in G.
  apply acked in E. destruct E as [-> _]. split; [reflexivity|].
  unfold logged_since. rewrite G.
  change (stderr (after_payload w)) with (stderr w).
  rewrite <- app_assoc, skipn_length_app. left. reflexivity.
Qed.

(** C7, as amended.  The speed is not validated.  After start-up it is
    the default 1.05, which is positive, when there is no speed argument,
    and [float(argv[3])] otherwise, whatever its sign.  An iteration leaves
    it unchanged unless the request is a SPEED: command whose remainder
    parses, and such a command sets it to the parsed value, whatever its
    sign, and announces it in the log.  Hence after any run of the loop the
    speed is the value of the last "SPEED changed to" line of that run, or
    the speed the run started with when there is none; in particular it is
    positive when it was positive before and every value announced during
    the run is positive. *)
Theorem speed_positive_while_accepted_positive :
  (forall argv w s w',
      startup argv w = (Return s, w') ->
      (nth_error argv 3 = None ->
       speed s = default_speed /\ float_pos (speed s) = true) /\
      (forall a, nth_error argv 3 = Some a -> py_float a = Some (speed s))) /\
  (forall s w c s' w',
      cycle (s, w) = (c, (s', w')) ->
      (speed s' = speed s \/
       exists text x,
         request w text /\ startswith text (lit "SPEED:") = true /\
         py_float (strip (skipn 6 text)) = Some x /\ speed s' = x) /\
      (forall text x,
          request w text -> startswith text (lit "SPEED:") = true ->
          py_float (strip (skipn 6 text)) = Some x ->
          speed s' = x /\ In (LogSpeedChanged x) (logged_since w w'))) /\
  (forall fuel s w s' w',
      loop fuel (s, w) = Some (s', w') ->
      speed s' = last (announced_speeds (logged_since w w')) (speed s) /\
      (float_pos (speed s) = true ->
       (forall x, In (LogSpeedChanged x) (logged_since w w') ->
                  float_pos x = true) ->
       float_pos (speed s') = true)).
Proof.
  split; [|split].
  - intros argv w s w' E. unfold startup, parse_args in E.
    destruct (match nth_error argv 3 with
              | Some a => py_float a
              | None => Some default_speed
              end) as [sp|] eqn:F; [|discriminate].
    destruct (match nth_error argv 4 with
              | Some a => py_int a
              | None => Some 5
              end) as [steps|]; [|discriminate].
    destruct (TTS_new _) as [[u|e|] e1]; try discriminate.
    destruct (get_voice_style e1 _) as [[sty|e|] e2]; try discriminate.
    injection E as <- _. cbn [speed]. split.
    + intros N. rewrite N in F. injection F as <-. split; reflexivity.
    + intros a N. rewrite N in F. exact F.
  - intros s w c s' w' E. split; [apply (cycle_speed s w c s' w' E)|].
    intros text x R Hs F. apply (cycle_speed_accepted s w text x c s' w'); auto.
  - intros fuel s w s' w' E.
    destruct (loop_speed_follows_log fuel _ _ E) as (l & El & Hs).
    cbn [fst snd] in *.
    assert (Hl : logged_since w w' = l)
      by (unfold logged_since; rewrite El; apply skipn_length_app).
    rewrite Hl. split; [exact Hs|].
    intros Hp Ha. rewrite Hs.
    destruct (last_in_or_default (announced_speeds l) (speed s)) as [D|D].
    + rewrite D. exact Hp.
    + apply Ha. apply announced_speeds_in. exact D.
Qed.

End Properties.

(** * The conversion of the samples to 16-bit PCM *)

(** ** Rounding to binary32 *)

Lemma pow2_pos (k : Z) : 0 <= k -> 0 < 2 ^ k.
Proof. intros H. apply Z.pow_pos_nonneg; lia. Qed.

Lemma pow2_succ (k : Z) : 0 <= k -> 2 ^ (k + 1) = 2 * 2 ^ k.
Proof. intros H. rewrite Z.pow_add_r by lia. lia. Qed.

Lemma shr_1_spec (m : Z) (r s : bool) :
  0 <= m ->
  shr_1 (Build_shr_record m r s) = Build_shr_record (m / 2) (Z.odd m) (r || s).
Proof.
  intros Hm. rewrite <- Z.div2_div.
  destruct m as [|p|p]; [reflexivity | | lia].
  destruct p; reflexivity.
Qed.

Lemma iter_pos_nat {A : Type} (f : A -> A) (p : positive) (x : A) :
  iter_pos f p x = Nat.iter (Pos.to_nat p) f x.
Proof.
  revert x. induction p as [p IH|p IH|]; intros x; cbn [iter_pos].
  - rewrite !IH, Pos2Nat.inj_xI.
    replace (S (2 * Pos.to_nat p)) with (Pos.to_nat p + S (Pos.to_nat p))%nat
      by lia.
    rewrite Nat.iter_add, Nat.iter_succ_r. reflexivity.
  - rewrite !IH, Pos2Nat.inj_xO.
    replace (2 * Pos.to_nat p)%nat with (Pos.to_nat p + Pos.to_nat p)%nat
      by lia.
    rewrite Nat.iter_add. reflexivity.
  - reflexivity.
Qed.

(** After [k + 1] shifts the record holds the quotient by [2^(k+1)], the
    bit below it and whether any lower bit is set. *)
Lemma shr_iter (k : nat) (m0 : Z) :
  0 <= m0 ->
  exists m r s low,
    Nat.iter (S k) shr_1 (Build_shr_record m0 false false)
    = Build_shr_record m r s /\
    0 <= m /\ 0 <= low < 2 ^ Z.of_nat k /\
    m0 = m * 2 ^ (Z.of_nat k + 1) + (if r then 2 ^ Z.of_nat k else 0) + low /\
    (s = true <-> 0 < low).
Proof.
  intros H0. induction k as [|k (m & r & s & low & E & Hm & Hl & Hd & Hs)].
  - exists (m0 / 2), (Z.odd m0), false, 0.
    split; [cbn [Nat.iter]; apply shr_1_spec; exact H0|].
    change (Z.of_nat 0 + 1) with 1. change (Z.of_nat 0) with 0.
    change (2 ^ 1) with 2. change (2 ^ 0) with 1.
    split; [apply Z.div_pos; lia|]. split; [lia|]. split.
    + pose proof (Z.div2_odd m0) as D. rewrite Z.div2_div in D.
      destruct (Z.odd m0); cbn [Z.b2z] in D; lia.
    + split; [discriminate | lia].
  - rewrite Nat.iter_succ, E, shr_1_spec by exact Hm.
    exists (m / 2), (Z.odd m), (r || s),
           ((if r then 2 ^ Z.of_nat k else 0) + low).
    split; [reflexivity|].
    pose proof (pow2_pos (Z.of_nat k) ltac:(lia)) as Hp.
    assert (E1 : 2 ^ Z.of_nat (S k) = 2 * 2 ^ Z.of_nat k)
      by (rewrite Nat2Z.inj_succ, <- Z.add_1_r; apply pow2_succ; lia).
    assert (E2 : 2 ^ (Z.of_nat k + 1) = 2 * 2 ^ Z.of_nat k)
      by (apply pow2_succ; lia).
    assert (E3 : 2 ^ (Z.of_nat (S k) + 1) = 4 * 2 ^ Z.of_nat k)
      by (rewrite pow2_succ, E1 by lia; lia).
    rewrite E1, E3. rewrite E2 in Hd.
    pose proof (Z.div2_odd m) as D. rewrite Z.div2_div in D.
    split; [apply Z.div_pos; lia|].
    split; [destruct r; lia|]. split.
    + destruct (Z.odd m); cbn [Z.b2z] in D; destruct r; nia.
    + rewrite orb_true_iff. destruct r; [split; [lia | auto]|].
      rewrite Hs. split; [intros [C|C]; [discriminate | lia] | auto].
Qed.

(** Shifting right by [p] bits and rounding to nearest even is division by
    [2^p] rounded to nearest, ties to even. *)
Lemma shr_round (p : positive) (m0 : Z) :
  0 <= m0 ->
  let mrs := iter_pos shr_1 p (shr_record_of_loc m0 loc_Exact) in
  round_nearest_even (shr_m mrs) (loc_of_shr_record mrs)
  = rnd m0 (2 ^ Zpos p).
Proof.
  intros H0 mrs. unfold mrs. rewrite iter_pos_nat.
  destruct (Pos2Nat.is_succ p) as [k Ek]. rewrite Ek.
  destruct (shr_iter k m0 H0) as (m & r & s & low & E & Hm & Hl & Hd & Hs).
  cbn [shr_record_of_loc]. rewrite E. cbn [shr_m loc_of_shr_record].
  assert (Ep : Zpos p = Z.of_nat k + 1) by lia.
  rewrite Ep. pose proof (pow2_pos (Z.of_nat k) ltac:(lia)) as Hp.
  rewrite pow2_succ in * by lia.
  set (h := 2 ^ Z.of_nat k) in *.
  set (rem := (if r then h else 0) + low).
  assert (Hr : 0 <= rem < 2 * h) by (unfold rem; destruct r; lia).
  assert (Hq : m = m0 / (2 * h))
    by (apply (Z.div_unique m0 (2 * h) m rem); [lia | unfold rem; lia]).
  assert (Er : rem = m0 mod (2 * h))
    by (apply (Z.mod_unique m0 (2 * h) m rem); [lia | unfold rem; lia]).
  unfold rnd. rewrite <- Hq, <- Er.
  destruct r, s; cbn [round_nearest_even].
  - assert (0 < low) by (apply Hs; reflexivity).
    replace (2 * rem ?= 2 * h) with Gt; [reflexivity|].
    symmetry. apply Z.compare_gt_iff. unfold rem. lia.
  - assert (low = 0).
    { destruct (Z.eq_dec low 0) as [|N]; [assumption|].
      assert (C : false = true) by (apply Hs; lia). discriminate C. }
    replace (2 * rem ?= 2 * h) with Eq; [reflexivity|].
    symmetry. apply Z.compare_eq_iff. unfold rem. lia.
  - assert (0 < low) by (apply Hs; reflexivity).
    replace (2 * rem ?= 2 * h) with Lt; [reflexivity|].
    symmetry. apply Z.compare_lt_iff. unfold rem. lia.
  - assert (low = 0).
    { destruct (Z.eq_dec low 0) as [|N]; [assumption|].
      assert (C : false = true) by (apply Hs; lia). discriminate C. }
    replace (2 * rem ?= 2 * h) with Lt; [reflexivity|].
    symmetry. apply Z.compare_lt_iff. unfold rem. lia.
Qed.

Lemma digits_log2 (p : positive) :
  Zpos (digits2_pos p) = Z.log2 (Zpos p) + 1.
Proof.
  assert (E : digits2_pos p = Pos.size p)
    by (induction p; cbn; congruence).
  rewrite E. destruct p; cbn [Z.log2 Pos.size]; lia.
Qed.

Lemma log2_bounds (v : Z) :
  0 < v -> 0 <= Z.log2 v /\ 2 ^ Z.log2 v <= v < 2 * 2 ^ Z.log2 v.
Proof.
  intros Hv. pose proof (Z.log2_nonneg v) as H0.
  pose proof (Z.log2_spec v Hv) as H.
  rewrite <- Z.add_1_r, pow2_succ in H by lia. lia.
Qed.

Lemma rnd_bounds (v g : Z) :
  0 < g -> v / g <= rnd v g <= v / g + 1.
Proof.
  intros Hg. unfold rnd.
  destruct (2 * (v mod g) ?= g); [destruct (Z.even (v / g))| |]; lia.
Qed.

Lemma rnd_error (v g : Z) : 0 < g -> Z.abs (2 * (rnd v g * g - v)) <= g.
Proof.
  intros Hg. pose proof (Z.div_mod v g ltac:(lia)) as D.
  pose proof (Z.mod_pos_bound v g Hg) as M. unfold rnd.
  destruct (Z.compare_spec (2 * (v mod g)) g);
    [destruct (Z.even (v / g))| |]; nia.
Qed.

(** Rounding a product to binary32, when the mantissa has to be shifted
    right. *)
Lemma round32_shift (s : bool) (m : positive) (e : Z) :
  let fe := Z.max (Z.log2 (Zpos m) + 1 + e - 24) (-149) in
  e < fe -> fe < 104 ->
  let q := rnd (Zpos m) (2 ^ (fe - e)) in
  binary_round_aux prec32 emax32 s (Zpos m) e loc_Exact =
  if q =? 0 then S754_zero s
  else if q =? 16777216 then S754_finite s 8388608 (fe + 1)
  else S754_finite s (Z.to_pos q) fe.
Proof.
  intros fe He Hmax q.
  unfold binary_round_aux, shr_fexp.
  cbn [Zdigits2]. rewrite digits_log2.
  change (fexp prec32 emax32 (Z.log2 (Zpos m) + 1 + e)) with fe.
  assert (Ep : exists p, fe - e = Zpos p).
  { destruct (fe - e) as [|p|p] eqn:En; try lia. exists p. reflexivity. }
  destruct Ep as [p Ep]. rewrite Ep. cbn [shr].
  pose proof (shr_round p (Zpos m) ltac:(lia)) as R. cbv zeta in R.
  rewrite R. rewrite <- Ep. fold q.
  replace (e + (fe - e)) with fe by lia.
  (* bounds on the rounded mantissa *)
  destruct (log2_bounds (Zpos m) ltac:(lia)) as [Hl0 Hl].
  set (l := Z.log2 (Zpos m)) in *.
  pose proof (pow2_pos (fe - e) ltac:(lia)) as Hg.
  assert (Hn : l + 1 - 24 <= fe - e) by (unfold fe; lia).
  assert (Hq : 0 <= q <= 16777216).
  { pose proof (rnd_bounds (Zpos m) (2 ^ (fe - e)) Hg) as B. fold q in B.
    assert (0 <= Zpos m / 2 ^ (fe - e)) by (apply Z.div_pos; lia).
    assert (Zpos m / 2 ^ (fe - e) < 16777216).
    { apply Z.div_lt_upper_bound; [lia|].
      destruct (Z.le_gt_cases (l + 1) (fe - e)) as [C|C].
      - assert (2 * 2 ^ l <= 2 ^ (fe - e)).
        { rewrite <- pow2_succ by lia. apply Z.pow_le_mono_r; lia. }
        lia.
      - replace (l + 1) with ((fe - e) + (l + 1 - (fe - e))) in Hl at 2
          by lia.
        assert (E2 : 2 * 2 ^ l = 2 ^ (fe - e) * 2 ^ (l + 1 - (fe - e))).
        { rewrite <- pow2_succ, <- Z.pow_add_r by lia. f_equal. lia. }
        assert (2 ^ (l + 1 - (fe - e)) <= 2 ^ 24)
          by (apply Z.pow_le_mono_r; lia).
        change (2 ^ 24) with 16777216 in *. nia. }
    lia. }
  assert (Hfe : -149 <= fe) by (unfold fe; lia).
  destruct (q =? 0) eqn:Q0.
  { apply Z.eqb_eq in Q0. rewrite Q0. cbn [round_nearest_even Zdigits2].
    unfold fexp, emin, prec32, emax32.
    destruct (Z.max (0 + fe - 24) (3 - 128 - 24) - fe) eqn:Es; try lia;
      reflexivity. }
  apply Z.eqb_neq in Q0.
  destruct (q =? 16777216) eqn:Q1.
  { apply Z.eqb_eq in Q1. rewrite Q1. cbn [Zdigits2 digits2_pos Pos.succ].
    unfold fexp, emin, prec32, emax32.
    replace (Z.max (25 + fe - 24) (3 - 128 - 24) - fe) with 1 by lia.
    cbn [shr iter_pos shr_record_of_loc shr_1 shr_m].
    replace (fe + 1 <=? 128 - 24) with true
      by (symmetry; apply Z.leb_le; lia).
    reflexivity. }
  apply Z.eqb_neq in Q1.
  destruct q as [|qq|qq] eqn:Eq'; try lia.
  cbn [Zdigits2]. rewrite digits_log2.
  destruct (log2_bounds (Zpos qq) ltac:(lia)) as [Hq0 Hql].
  assert (Z.log2 (Zpos qq) < 24).
  { apply Z.log2_lt_pow2; [lia|]. change (2 ^ 24) with 16777216. lia. }
  unfold fexp, emin, prec32, emax32.
  destruct (Z.max (Z.log2 (Zpos qq) + 1 + fe - 24) (3 - 128 - 24) - fe)
    eqn:Es; try lia;
    cbn [shr shr_record_of_loc shr_m];
    (replace (fe <=? 128 - 24) with true by (symmetry; apply Z.leb_le; lia));
    reflexivity.
Qed.

Lemma rnd_scale (v g k : Z) :
  0 < g -> 0 < k -> rnd (v * k) (g * k) = rnd v g.
Proof.
  intros Hg Hk. unfold rnd.
  rewrite Z.div_mul_cancel_r by lia.
  rewrite Z.mul_mod_distr_r by lia.
  replace (2 * (v mod g * k)) with (2 * (v mod g) * k) by lia.
  assert (C : (2 * (v mod g) * k ?= g * k) = (2 * (v mod g) ?= g)).
  { destruct (Z.compare_spec (2 * (v mod g)) g);
      [apply Z.compare_eq_iff | apply Z.compare_lt_iff
       | apply Z.compare_gt_iff]; nia. }
  rewrite C. reflexivity.
Qed.

Lemma rnd_mono (v1 v2 g : Z) :
  0 < g -> v1 <= v2 -> rnd v1 g <= rnd v2 g.
Proof.
  intros Hg Hv.
  pose proof (rnd_bounds v1 g Hg) as B1.
  pose proof (rnd_bounds v2 g Hg) as B2.
  pose proof (Z.div_le_mono v1 v2 g Hg Hv) as Hq.
  destruct (Z.eq_dec (v1 / g) (v2 / g)) as [E|N]; [|lia].
  pose proof (Z.div_mod v1 g ltac:(lia)) as D1.
  pose proof (Z.div_mod v2 g ltac:(lia)) as D2.
  assert (Hr : v1 mod g <= v2 mod g) by (rewrite E in D1; lia).
  unfold rnd. rewrite E.
  destruct (Z.compare_spec (2 * (v1 mod g)) g);
    destruct (Z.compare_spec (2 * (v2 mod g)) g);
    destruct (Z.even (v2 / g)); lia.
Qed.

Lemma rnd_le_multiple (v g k : Z) :
  0 < g -> v <= k * g -> rnd v g <= k.
Proof.
  intros Hg Hv. pose proof (rnd_bounds v g Hg) as B.
  destruct (Z.lt_ge_cases (v / g) k) as [C|C]; [lia|].
  pose proof (Z.div_mod v g ltac:(lia)) as D.
  pose proof (Z.mod_pos_bound v g Hg) as M.
  assert (E : v mod g = 0) by nia.
  assert (Eq' : v / g = k) by nia.
  unfold rnd. rewrite E, Eq'.
  replace (2 * 0 ?= g) with Lt by (symmetry; apply Z.compare_lt_iff; lia).
  lia.
Qed.

Lemma rnd_ge_multiple (v g k : Z) :
  0 < g -> k * g <= v -> k <= rnd v g.
Proof.
  intros Hg Hv. pose proof (rnd_bounds v g Hg) as B.
  assert (k <= v / g) by (apply Z.div_le_lower_bound; lia).
  lia.
Qed.

Lemma grid_pos (v : Z) : 0 < grid v.
Proof. apply pow2_pos. lia. Qed.

Lemma round32_mono (v1 v2 : Z) :
  0 < v1 -> v1 <= v2 -> round32 v1 <= round32 v2.
Proof.
  intros H1 H12. unfold round32, grid.
  destruct (log2_bounds v1 H1) as [L1 B1].
  destruct (log2_bounds v2 ltac:(lia)) as [L2 B2].
  pose proof (Z.log2_le_mono v1 v2 H12) as Hl.
  set (b1 := Z.log2 v1) in *. set (b2 := Z.log2 v2) in *.
  set (g1 := Z.max (b1 + 1 - 24) 9). set (g2 := Z.max (b2 + 1 - 24) 9).
  pose proof (pow2_pos g1 ltac:(lia)) as P1.
  pose proof (pow2_pos g2 ltac:(lia)) as P2.
  destruct (Z.eq_dec g1 g2) as [E|N].
  - rewrite E. apply Z.mul_le_mono_nonneg_r; [lia|].
    apply rnd_mono; lia.
  - assert (Hg : g1 < g2) by lia.
    assert (Hb : b1 < b2) by lia.
    assert (Hg2 : g2 = b2 - 23) by lia.
    (* 2^b2 separates the two rounded values *)
    apply Z.le_trans with (2 ^ b2).
    + assert (E1 : 2 ^ b2 = 2 ^ (b2 - g1) * 2 ^ g1)
        by (rewrite <- Z.pow_add_r by lia; f_equal; lia).
      rewrite E1. apply Z.mul_le_mono_nonneg_r; [lia|].
      apply rnd_le_multiple; [lia|]. rewrite <- E1.
      assert (2 * 2 ^ b1 <= 2 ^ b2).
      { rewrite <- pow2_succ by lia. apply Z.pow_le_mono_r; lia. }
      lia.
    + assert (E2 : 2 ^ b2 = 2 ^ (b2 - g2) * 2 ^ g2)
        by (rewrite <- Z.pow_add_r by lia; f_equal; lia).
      rewrite E2 at 1. apply Z.mul_le_mono_nonneg_r; [lia|].
      apply rnd_ge_multiple; [lia|]. rewrite <- E2. lia.
Qed.

(** The integer part of a rounded product, from the product in units of
    2^-158. *)
Lemma trunc_round32 (s : bool) (m : positive) (e : Z) :
  -158 <= e ->
  let fe := Z.max (Z.log2 (Zpos m) + 1 + e - 24) (-149) in
  e < fe -> fe < 0 ->
  trunc (binary_round_aux prec32 emax32 s (Zpos m) e loc_Exact)
  = Some (cond_Zopp s (round32 (Zpos m * 2 ^ (e + 158)) / 2 ^ 158)).
Proof.
  intros He fe Hs Hf.
  pose proof (round32_shift s m e) as R. cbv zeta in R. fold fe in R.
  rewrite R by lia. clear R.
  set (q := rnd (Zpos m) (2 ^ (fe - e))).
  pose proof (pow2_pos (fe - e) ltac:(lia)) as Pn.
  pose proof (pow2_pos (e + 158) ltac:(lia)) as Pe.
  pose proof (pow2_pos (fe + 158) ltac:(unfold fe; lia)) as Pf.
  pose proof (pow2_pos (- fe) ltac:(lia)) as Pm.
  assert (Eg : grid (Zpos m * 2 ^ (e + 158)) = 2 ^ (fe + 158)).
  { unfold grid. rewrite Z.log2_mul_pow2 by lia. f_equal. unfold fe. lia. }
  assert (Ef : 2 ^ (fe + 158) = 2 ^ (fe - e) * 2 ^ (e + 158))
    by (rewrite <- Z.pow_add_r by lia; f_equal; lia).
  assert (Er : round32 (Zpos m * 2 ^ (e + 158)) = q * 2 ^ (fe + 158)).
  { unfold round32. rewrite Eg. f_equal. rewrite Ef.
    apply rnd_scale; lia. }
  assert (E158 : 2 ^ 158 = 2 ^ (- fe) * 2 ^ (fe + 158))
    by (rewrite <- Z.pow_add_r by (unfold fe; lia); f_equal; lia).
  assert (Et : round32 (Zpos m * 2 ^ (e + 158)) / 2 ^ 158 = q / 2 ^ (- fe)).
  { rewrite Er, E158. apply Z.div_mul_cancel_r; lia. }
  rewrite Et.
  assert (Hq : 0 <= q).
  { pose proof (rnd_bounds (Zpos m) (2 ^ (fe - e)) Pn) as B. fold q in B.
    assert (0 <= Zpos m / 2 ^ (fe - e)) by (apply Z.div_pos; lia). lia. }
  destruct (q =? 0) eqn:Q0.
  { apply Z.eqb_eq in Q0. rewrite Q0. cbn [trunc].
    rewrite Z.div_0_l by lia. destruct s; reflexivity. }
  apply Z.eqb_neq in Q0.
  destruct (q =? 16777216) eqn:Q1.
  { apply Z.eqb_eq in Q1. rewrite Q1. cbn [trunc]. do 2 f_equal.
    rewrite Z.shiftl_div_pow2 by lia.
    replace (- (fe + 1)) with (- fe - 1) by lia.
    replace (2 ^ (- fe)) with (2 * 2 ^ (- fe - 1))
      by (rewrite <- pow2_succ by lia; f_equal; lia).
    change 16777216 with (2 * 8388608).
    pose proof (pow2_pos (- fe - 1) ltac:(lia)).
    rewrite Z.div_mul_cancel_l by lia. reflexivity. }
  cbn [trunc]. do 2 f_equal.
  rewrite Z.shiftl_div_pow2 by lia. rewrite Z2Pos.id by lia. reflexivity.
Qed.

(** A binary32 number: 24 significant bits from exponent -149 on, fewer
    at -149. *)
Lemma bounded32 (m : positive) (e : Z) :
  bounded prec32 emax32 m e = true ->
  -149 <= e <= 104 /\ Z.log2 (Zpos m) <= 23 /\
  (-149 < e -> Z.log2 (Zpos m) = 23).
Proof.
  unfold bounded, canonical_mantissa. rewrite andb_true_iff, digits_log2.
  unfold fexp, emin, prec32, emax32. intros [C L].
  apply Z.eqb_eq in C. apply Z.leb_le in L. lia.
Qed.

Lemma units_finite_pos (m : positive) (e : Z) :
  -149 <= e -> 0 < Zpos m * 2 ^ (e + 149).
Proof. intros He. pose proof (pow2_pos (e + 149) ltac:(lia)). lia. Qed.

(** ** Samples and their values *)

(** On binary32 numbers the lexicographic comparison of exponent and
    mantissa is the comparison of the values. *)
Lemma bounded32_lt (m1 : positive) (e1 : Z) (m2 : positive) (e2 : Z) :
  bounded prec32 emax32 m1 e1 = true ->
  bounded prec32 emax32 m2 e2 = true ->
  e1 < e2 ->
  Zpos m1 * 2 ^ (e1 + 149) < Zpos m2 * 2 ^ (e2 + 149).
Proof.
  intros B1 B2 He.
  destruct (bounded32 m1 e1 B1) as (R1 & L1 & _).
  destruct (bounded32 m2 e2 B2) as (R2 & _ & N2).
  specialize (N2 ltac:(lia)).
  destruct (log2_bounds (Zpos m1) ltac:(lia)) as [_ H1].
  destruct (log2_bounds (Zpos m2) ltac:(lia)) as [_ H2].
  rewrite N2 in H2.
  assert (2 * 2 ^ Z.log2 (Zpos m1) <= 2 * 2 ^ 23).
  { apply Z.mul_le_mono_nonneg_l; [lia|]. apply Z.pow_le_mono_r; lia. }
  pose proof (pow2_pos (e1 + 149) ltac:(lia)) as P1.
  assert (E : 2 ^ (e2 + 149) = 2 ^ (e2 - e1 - 1) * (2 * 2 ^ (e1 + 149))).
  { rewrite <- pow2_succ, <- Z.pow_add_r by lia. f_equal. lia. }
  pose proof (pow2_pos (e2 - e1 - 1) ltac:(lia)) as P2.
  rewrite E. change (2 ^ 23) with 8388608 in *. nia.
Qed.

Lemma units_le (x y : float32) :
  is_float32 x = true -> is_float32 y = true ->
  SFleb x y = true ->
  match x, y with
  | (S754_zero _ | S754_finite _ _ _), (S754_zero _ | S754_finite _ _ _) =>
    units x <= units y
  | _, _ => True
  end.
Proof.
  intros Vx Vy. unfold SFleb.
  destruct x as [sx|sx| |sx mx ex], y as [sy|sy| |sy my ey]; trivial;
    cbn [SFcompare units cond_Zopp].
  - intros _. lia.
  - destruct (bounded32 my ey Vy) as (Ry & _).
    pose proof (units_finite_pos my ey ltac:(lia)).
    destruct sy; [discriminate | cbn [cond_Zopp]; intros _; lia].
  - destruct (bounded32 mx ex Vx) as (Rx & _).
    pose proof (units_finite_pos mx ex ltac:(lia)).
    destruct sx; [cbn [cond_Zopp]; intros _; lia | discriminate].
  - destruct (bounded32 mx ex Vx) as (Rx & _).
    destruct (bounded32 my ey Vy) as (Ry & _).
    pose proof (units_finite_pos mx ex ltac:(lia)) as Px.
    pose proof (units_finite_pos my ey ltac:(lia)) as Py.
    change (Pos.compare_cont Eq mx my) with (Zpos mx ?= Zpos my).
    destruct sx, sy; cbn [cond_Zopp]; try discriminate; try (intros _; lia).
    + destruct (Z.compare_spec ex ey) as [E|L|G]; try discriminate.
      * subst ey. pose proof (pow2_pos (ex + 149) ltac:(lia)).
        destruct (Z.compare_spec (Zpos mx) (Zpos my)); cbn [CompOpp];
          try discriminate; intros _; nia.
      * pose proof (bounded32_lt my ey mx ex Vy Vx G). intros _. lia.
    + destruct (Z.compare_spec ex ey) as [E|L|G]; try discriminate.
      * subst ey. pose proof (pow2_pos (ex + 149) ltac:(lia)).
        destruct (Z.compare_spec (Zpos mx) (Zpos my));
          try discriminate; intros _; nia.
      * pose proof (bounded32_lt mx ex my ey Vx Vy L). intros _. lia.
Qed.

Lemma float32_of_32767 :
  float32_of_Z 32767 = S754_finite false 16776704 (-9).
Proof. reflexivity. Qed.

Lemma round32_nonneg (v : Z) : 0 <= v -> 0 <= round32 v.
Proof.
  intros Hv. unfold round32. pose proof (grid_pos v) as G.
  pose proof (rnd_bounds v (grid v) G) as B.
  assert (0 <= v / grid v) by (apply Z.div_pos; lia). nia.
Qed.

Lemma pcm_of_units_mono (u1 u2 : Z) :
  u1 <= u2 -> pcm_of_units u1 <= pcm_of_units u2.
Proof.
  intros H. unfold pcm_of_units.
  assert (P : forall u, 0 <= round32 (Z.abs u * 16776704) / 2 ^ 158).
  { intros u. apply Z.div_pos; [apply round32_nonneg; lia|].
    apply pow2_pos; lia. }
  assert (M : forall a b, 0 < a -> a <= b ->
                round32 (a * 16776704) / 2 ^ 158
                <= round32 (b * 16776704) / 2 ^ 158).
  { intros a b Ha Hab. apply Z.div_le_mono; [apply pow2_pos; lia|].
    apply round32_mono; lia. }
  pose proof (P u1) as P1. pose proof (P u2) as P2.
  destruct (Z.sgn_spec u1) as [[S1 ->]|[[S1 ->]|[S1 ->]]];
    destruct (Z.sgn_spec u2) as [[S2 ->]|[[S2 ->]|[S2 ->]]]; try lia.
  - specialize (M (Z.abs u1) (Z.abs u2) ltac:(lia) ltac:(lia)). lia.
  - specialize (M (Z.abs u2) (Z.abs u1) ltac:(lia) ltac:(lia)). lia.
Qed.

(** The PCM value of a sample of at most one in magnitude has the sign of
    the sample, is not larger in magnitude than 32767 times the sample but
    for the rounding of the product (at most 2^-10), and falls short of it
    by less than one and that rounding. *)
Lemma pcm_of_units_error (u : Z) :
  - 2 ^ 149 <= u <= 2 ^ 149 ->
  0 <= pcm_of_units u * u /\
  32767 * Z.abs u - 2 ^ 149 - 2 ^ 139
  < Z.abs (pcm_of_units u) * 2 ^ 149 <= 32767 * Z.abs u + 2 ^ 139.
Proof.
  intros Hu. unfold pcm_of_units.
  set (v := Z.abs u * 16776704).
  pose proof (pow2_pos 149 ltac:(lia)) as P149.
  pose proof (pow2_pos 139 ltac:(lia)) as P139.
  destruct (Z.eq_dec u 0) as [->|Nz].
  { change (Z.sgn 0) with 0. cbn [Z.mul Z.abs]. lia. }
  assert (Hv : 0 < v) by (unfold v; lia).
  assert (Hvb : v < 2 ^ 173).
  { unfold v. replace 173 with (149 + 24) by lia.
    rewrite Z.pow_add_r by lia. change (2 ^ 24) with 16777216. lia. }
  pose proof (grid_pos v) as Gp.
  assert (Gb : grid v <= 2 ^ 149).
  { unfold grid. apply Z.pow_le_mono_r; [lia|].
    assert (Z.log2 v < 173) by (apply Z.log2_lt_pow2; lia). lia. }
  pose proof (rnd_error v (grid v) Gp) as E. fold (round32 v) in E.
  pose proof (round32_nonneg v ltac:(lia)) as Wn.
  assert (P158 : 2 ^ 158 = 512 * 2 ^ 149)
    by (replace 158 with (9 + 149) by lia; rewrite Z.pow_add_r by lia;
        reflexivity).
  assert (P149' : 2 ^ 149 = 1024 * 2 ^ 139)
    by (replace 149 with (10 + 139) by lia; rewrite Z.pow_add_r by lia;
        reflexivity).
  pose proof (Z.div_mod (round32 v) (2 ^ 158) ltac:(lia)) as D.
  pose proof (Z.mod_pos_bound (round32 v) (2 ^ 158) ltac:(lia)) as M.
  assert (T0 : 0 <= round32 v / 2 ^ 158) by (apply Z.div_pos; lia).
  set (t := round32 v / 2 ^ 158) in *.
  set (r := round32 v mod 2 ^ 158) in *.
  assert (Ev : v = 512 * (32767 * Z.abs u)) by (unfold v; lia).
  destruct (Z.sgn_spec u) as [[S ->]|[[S ->]|[S ->]]]; lia.
Qed.

Lemma pcm_of_units_full_scale :
  pcm_of_units (2 ^ 149) = 32767 /\ pcm_of_units (- 2 ^ 149) = -32767.
Proof. split; vm_compute; reflexivity. Qed.

Lemma units_one : units f32_one = 2 ^ 149 /\ units (SFopp f32_one) = - 2 ^ 149.
Proof. split; vm_compute; reflexivity. Qed.

(** The integer part of the scaled sample, for a sample of at most one
    in magnitude. *)
Lemma trunc_mul_int (x : float32) :
  is_float32 x = true ->
  match x with S754_zero _ | S754_finite _ _ _ => True | _ => False end ->
  - 2 ^ 149 <= units x <= 2 ^ 149 ->
  trunc (mul_int x 32767) = Some (pcm_of_units (units x)).
Proof.
  intros V F R. unfold mul_int. rewrite float32_of_32767.
  destruct x as [s|s| |s m e]; try contradiction.
  { cbn. reflexivity. }
  cbn [SFmul units] in *. rewrite xorb_false_r.
  destruct (bounded32 m e V) as (Re & Lm & Nm).
  pose proof (units_finite_pos m e ltac:(lia)) as Pu.
  set (u := Zpos m * 2 ^ (e + 149)) in *.
  assert (Hu : u <= 2 ^ 149) by (destruct s; cbn [cond_Zopp] in R; lia).
  change (Zpos (m * 16776704)) with (Zpos m * 16776704).
  destruct (log2_bounds (Zpos m) ltac:(lia)) as [L0 Lb].
  destruct (log2_bounds (Zpos m * 16776704) ltac:(lia)) as [M0 Mb].
  set (l := Z.log2 (Zpos m)) in *.
  set (lm := Z.log2 (Zpos m * 16776704)) in *.
  (* the product has 23 or 24 bits more than the sample *)
  assert (Hlm : l + 23 <= lm).
  { apply Z.log2_le_pow2; [lia|]. rewrite Z.pow_add_r by lia.
    change (2 ^ 23) with 8388608. nia. }
  (* and is below 2^15 *)
  assert (Hv : lm + (e - 9) < 15).
  { assert (C : 2 ^ lm * 2 ^ (e + 149) <= 16776704 * 2 ^ 149).
    { pose proof (pow2_pos (e + 149) ltac:(lia)). unfold u in Hu. nia. }
    rewrite <- Z.pow_add_r in C by lia.
    assert (C2 : 2 ^ (lm + (e + 149)) < 2 ^ 173).
    { replace 173 with (24 + 149) by lia. rewrite (Z.pow_add_r 2 24 149) by lia.
      change (2 ^ 24) with 16777216.
      pose proof (pow2_pos 149 ltac:(lia)). lia. }
    apply Z.pow_lt_mono_r_iff in C2; lia. }
  pose proof (trunc_round32 s (m * 16776704)%positive (e + -9)) as T.
  cbv zeta in T.
  change (Zpos (m * 16776704)) with (Zpos m * 16776704) in T.
  fold lm in T. rewrite T; try lia.
  - f_equal. unfold pcm_of_units.
    replace (Zpos m * 16776704 * 2 ^ (e + -9 + 158))
      with (u * 16776704)
      by (unfold u; replace (e + -9 + 158) with (e + 149) by lia; lia).
    destruct s; cbn [cond_Zopp].
    + rewrite Z.sgn_neg, Z.abs_neq by lia.
      replace (- - u) with u by lia. lia.
    + rewrite Z.sgn_pos, Z.abs_eq by lia. lia.
Qed.

(** ** The cast *)

Lemma wrap16_range (t : Z) : -32768 <= wrap16 t <= 32767.
Proof.
  unfold wrap16. pose proof (Z.mod_pos_bound (t + 32768) 65536 ltac:(lia)).
  lia.
Qed.

Lemma wrap16_small (t : Z) : wrap16 t = t <-> -32768 <= t <= 32767.
Proof.
  split.
  - intros <-. apply wrap16_range.
  - intros H. unfold wrap16. rewrite Z.mod_small by lia. lia.
Qed.

Lemma wrap16_congruent (t : Z) : (wrap16 t - t) mod 65536 = 0.
Proof.
  unfold wrap16.
  pose proof (Z.div_mod (t + 32768) 65536 ltac:(lia)) as D.
  replace ((t + 32768) mod 65536 - 32768 - t)
    with (- ((t + 32768) / 65536) * 65536) by lia.
  apply Z.mod_mul. lia.
Qed.

Lemma in_unit_range_units (x : float32) :
  in_unit_range x ->
  match x with S754_zero _ | S754_finite _ _ _ => True | _ => False end /\
  - 2 ^ 149 <= units x <= 2 ^ 149.
Proof.
  intros (V & Lo & Hi).
  assert (V1 : is_float32 f32_one = true) by reflexivity.
  assert (V2 : is_float32 (SFopp f32_one) = true) by reflexivity.
  pose proof (units_le x f32_one V V1 Hi) as U1.
  pose proof (units_le (SFopp f32_one) x V2 V Lo) as U2.
  destruct units_one as [E1 E2].
  destruct x as [s|s| |s m e].
  - split; [exact I|]. cbn [units]. pose proof (pow2_pos 149 ltac:(lia)). lia.
  - destruct s; [discriminate Lo | discriminate Hi].
  - discriminate Hi.
  - split; [exact I|].
    change (match f32_one with
            | S754_zero _ | S754_finite _ _ _ =>
              units (S754_finite s m e) <= units f32_one
            | _ => True
            end) with (units (S754_finite s m e) <= units f32_one) in U1.
    change (match SFopp f32_one with
            | S754_zero _ | S754_finite _ _ _ =>
              units (SFopp f32_one) <= units (S754_finite s m e)
            | _ => True
            end) with (units (SFopp f32_one) <= units (S754_finite s m e))
      in U2.
    lia.
Qed.

Section Pcm.
Context {np : Numpy}.

Lemma unit_range_pcm (x : float32) :
  in_unit_range x ->
  trunc (mul_int x 32767) = Some (pcm_of_units (units x)) /\
  -32767 <= pcm_of_units (units x) <= 32767 /\
  (0 <= pcm_of_units (units x) * units x /\
   32767 * Z.abs (units x) - 2 ^ 149 - 2 ^ 139
   < Z.abs (pcm_of_units (units x)) * 2 ^ 149
   <= 32767 * Z.abs (units x) + 2 ^ 139) /\
  astype_int16 (mul_int x 32767) = pcm_of_units (units x).
Proof.
  intros H. destruct (in_unit_range_units x H) as [F R].
  destruct H as (V & _).
  pose proof (trunc_mul_int x V F R) as T.
  destruct pcm_of_units_full_scale as [E1 E2].
  pose proof (pcm_of_units_mono (units x) (2 ^ 149) ltac:(lia)) as M1.
  pose proof (pcm_of_units_mono (- 2 ^ 149) (units x) ltac:(lia)) as M2.
  rewrite E1 in M1. rewrite E2 in M2.
  split; [exact T|]. split; [lia|].
  split; [apply pcm_of_units_error; exact R|].
  unfold astype_int16. rewrite T.
  replace (-2147483648 <=? pcm_of_units (units x)) with true
    by (symmetry; apply Z.leb_le; lia).
  replace (pcm_of_units (units x) <? 2147483648) with true
    by (symmetry; apply Z.ltb_lt; lia).
  apply wrap16_small. lia.
Qed.

(** C6.  Each sample is converted on its own, in the order of the
    waveform, to the integer part of its binary32 product with 32767.  For
    a sample between -1 and 1 that integer lies between -32767 and 32767,
    has the sign of the sample, is 32767 times the sample cut off towards
    zero up to the rounding of the product (its magnitude exceeds that of
    the exact product by at most 2^-10 and falls short of it by less than
    [1 + 2^-10]; the sample is counted in units of 2^-149), and is the PCM
    value as it is, without wrap-around; the conversion keeps the order of
    the values.  Nothing is clamped: whenever the
    integer part fits 32 bits the PCM value is that integer reduced modulo
    2^16 to the 16-bit range, so that it is the integer itself exactly when
    it lies between -32768 and 32767.  Full scale is reached at 1 and -1,
    and the sample 2 wraps to -2. *)
Theorem pcm16_conversion :
  (forall samples : list float32,
      List.length (to_pcm16 samples) = List.length samples /\
      forall i,
        nth_error (to_pcm16 samples) i
        = option_map (fun x => astype_int16 (mul_int x 32767))
                     (nth_error samples i)) /\
  (forall x,
      in_unit_range x ->
      exists t,
        trunc (mul_int x 32767) = Some t /\ -32767 <= t <= 32767 /\
        0 <= t * units x /\
        32767 * Z.abs (units x) - 2 ^ 149 - 2 ^ 139
        < Z.abs t * 2 ^ 149 <= 32767 * Z.abs (units x) + 2 ^ 139 /\
        astype_int16 (mul_int x 32767) = t) /\
  (forall x y,
      in_unit_range x -> in_unit_range y -> SFleb x y = true ->
      astype_int16 (mul_int x 32767) <= astype_int16 (mul_int y 32767)) /\
  (forall x t,
      trunc (mul_int x 32767) = Some t ->
      -2147483648 <= t < 2147483648 ->
      astype_int16 (mul_int x 32767) = wrap16 t /\
      -32768 <= wrap16 t <= 32767 /\
      (wrap16 t - t) mod 65536 = 0 /\
      (wrap16 t = t <-> -32768 <= t <= 32767)) /\
  astype_int16 (mul_int f32_one 32767) = 32767 /\
  astype_int16 (mul_int (SFopp f32_one) 32767) = -32767 /\
  astype_int16 (mul_int (float32_of_Z 2) 32767) = -2.
Proof.
  split; [|split; [|split; [|split; [|split; [|split]]]]].
  - intros samples. unfold to_pcm16. split; [apply length_map|].
    intros i. apply nth_error_map.
  - intros x H. destruct (unit_range_pcm x H) as (T & B & [S E] & A).
    exists (pcm_of_units (units x)).
    split; [exact T|]. split; [exact B|]. split; [exact S|].
    split; [exact E | exact A].
  - intros x y Hx Hy L.
    destruct (unit_range_pcm x Hx) as (_ & _ & _ & ->).
    destruct (unit_range_pcm y Hy) as (_ & _ & _ & ->).
    apply pcm_of_units_mono.
    destruct (in_unit_range_units x Hx) as [Fx _].
    destruct (in_unit_range_units y Hy) as [Fy _].
    pose proof (units_le x y (proj1 Hx) (proj1 Hy) L) as U.
    destruct x, y; try contradiction; exact U.
  - intros x t T R. unfold astype_int16. rewrite T.
    replace (-2147483648 <=? t) with true by (symmetry; apply Z.leb_le; lia).
    replace (t <? 2147483648) with true by (symmetry; apply Z.ltb_lt; lia).
    split; [reflexivity|]. split; [apply wrap16_range|].
    split; [apply wrap16_congruent | apply wrap16_small].
  - reflexivity.
  - reflexivity.
  - reflexivity.
Qed.
End Pcm.

(** * Further properties of the daemon *)

(** ** The header codec *)

Lemma byte_of_Z_of_byte (b : byte) : byte_of_Z (Z_of_byte b) = b.
Proof.
  unfold byte_of_Z, Z_of_byte.
  pose proof (Byte.to_N_bounded b) as Hb.
  rewrite Z.mod_small by lia.
  rewrite N2Z.id, Byte.of_to_N. reflexivity.
Qed.

Lemma Z_of_byte_range (b : byte) : 0 <= Z_of_byte b < 256.
Proof.
  unfold Z_of_byte. pose proof (Byte.to_N_bounded b). lia.
Qed.

(** Lines 52, 59 and 128.  [struct.unpack('<I', h)] and
    [struct.pack('<I', n)] are inverse to each other: any four bytes are a
    header, its value lies in [0, 2^32) and packs back to the same bytes;
    any length in that range packs to four bytes that unpack to it, and a
    length outside it is refused. *)
Theorem header_codec_round_trip :
  (forall h : bytes,
      List.length h = 4%nat ->
      0 <= unpack_I h < 4294967296 /\ pack_I (unpack_I h) = Some h) /\
  (forall n : Z,
      0 <= n < 4294967296 ->
      exists b, pack_I n = Some b /\ List.length b = 4%nat /\ unpack_I b = n)
  /\
  (forall n : Z, n < 0 \/ 4294967296 <= n -> pack_I n = None).
Proof.
  split; [|split].
  - intros h Hh.
    destruct h as [|a [|b [|c [|d [|x h]]]]]; try discriminate Hh.
    unfold unpack_I. cbn [unpack_le].
    pose proof (Z_of_byte_range a) as Ha.
    pose proof (Z_of_byte_range b) as Hb.
    pose proof (Z_of_byte_range c) as Hc.
    pose proof (Z_of_byte_range d) as Hd.
    set (v := Z_of_byte a +
              256 * (Z_of_byte b +
                     256 * (Z_of_byte c + 256 * (Z_of_byte d + 256 * 0)))).
    assert (Hv : 0 <= v < 4294967296) by (unfold v; lia).
    split; [exact Hv|].
    unfold pack_I.
    replace (0 <=? v) with true by (symmetry; apply Z.leb_le; lia).
    replace (v <? 4294967296) with true by (symmetry; apply Z.ltb_lt; lia).
    cbn [andb]. unfold le32, byte_of_Z at 1 2 3 4.
    assert (E0 : v mod 256 = Z_of_byte a)
      by (unfold v; Z.to_euclidean_division_equations; lia).
    assert (E1 : (v / 256) mod 256 = Z_of_byte b)
      by (unfold v; Z.to_euclidean_division_equations; lia).
    assert (E2 : (v / 65536) mod 256 = Z_of_byte c)
      by (unfold v; Z.to_euclidean_division_equations; lia).
    assert (E3 : (v / 16777216) mod 256 = Z_of_byte d)
      by (unfold v; Z.to_euclidean_division_equations; lia).
    rewrite E0, E1, E2, E3.
    pose proof (byte_of_Z_of_byte a) as Ba.
    pose proof (byte_of_Z_of_byte b) as Bb.
    pose proof (byte_of_Z_of_byte c) as Bc.
    pose proof (byte_of_Z_of_byte d) as Bd.
    unfold byte_of_Z in Ba, Bb, Bc, Bd.
    rewrite (Z.mod_small (Z_of_byte a)) in Ba by lia.
    rewrite (Z.mod_small (Z_of_byte b)) in Bb by lia.
    rewrite (Z.mod_small (Z_of_byte c)) in Bc by lia.
    rewrite (Z.mod_small (Z_of_byte d)) in Bd by lia.
    rewrite Ba, Bb, Bc, Bd. reflexivity.
  - intros n Hn. exists (le32 n). unfold pack_I.
    replace (0 <=? n) with true by (symmetry; apply Z.leb_le; lia).
    replace (n <? 4294967296) with true by (symmetry; apply Z.ltb_lt; lia).
    repeat split. apply unpack_I_le32. exact Hn.
  - intros n Hn. unfold pack_I.
    destruct Hn as [Hn|Hn].
    + replace (0 <=? n) with false by (symmetry; apply Z.leb_gt; lia).
      reflexivity.
    + replace (n <? 4294967296) with false
        by (symmetry; apply Z.ltb_ge; lia).
      rewrite andb_false_r. reflexivity.
Qed.

(** ** White space around identifiers *)

Lemma lstrip_spec (s : str) :
  exists a, s = a ++ lstrip s /\ blank a /\
            forall c r, lstrip s = c :: r -> isspace c = false.
Proof.
  induction s as [|x s (a & E & Ba & Hc)]; cbn [lstrip].
  - exists []. repeat split. intros c r [=].
  - destruct (isspace x) eqn:X.
    + exists (x :: a). split; [cbn; f_equal; exact E|].
      split; [unfold blank; cbn; rewrite X; exact Ba | exact Hc].
    + exists []. repeat split. intros c r [= <- _]. exact X.
Qed.

Lemma blank_rev (a : str) : blank a -> blank (rev a).
Proof.
  unfold blank. rewrite !forallb_forall. intros H c Hin.
  apply H, in_rev. exact Hin.
Qed.

Lemma rstrip_spec (s : str) :
  exists b, s = rstrip s ++ b /\ blank b /\
            forall c r, rstrip s = r ++ [c] -> isspace c = false.
Proof.
  unfold rstrip. destruct (lstrip_spec (rev s)) as (a & E & Ba & Hc).
  exists (rev a). split; [|split].
  - rewrite <- rev_app_distr, <- E, rev_involutive. reflexivity.
  - apply blank_rev, Ba.
  - intros c r Er. apply (Hc c (rev r)).
    rewrite <- (rev_involutive (lstrip (rev s))), Er, rev_app_distr.
    reflexivity.
Qed.

(** [strip] removes a blank prefix and a blank suffix, and what is left
    neither begins nor ends with white space. *)
Lemma strip_spec (s : str) :
  exists a b, s = a ++ strip s ++ b /\ blank a /\ blank b /\
              no_outer_space (strip s).
Proof.
  unfold strip. destruct (lstrip_spec s) as (a & Ea & Ba & Ha).
  destruct (rstrip_spec (lstrip s)) as (b & Eb & Bb & Hb).
  exists a, b. split; [rewrite <- Eb; exact Ea|].
  split; [exact Ba|]. split; [exact Bb|]. split; [|exact Hb].
  intros c r Er. apply (Ha c (r ++ b)). rewrite Eb at 1. rewrite Er.
  reflexivity.
Qed.

Lemma lstrip_blank (s : str) : blank s -> lstrip s = [].
Proof.
  unfold blank. induction s as [|x s IH]; cbn; [reflexivity|].
  destruct (isspace x); [exact IH | discriminate].
Qed.

Lemma strip_blank (s : str) : blank s -> strip s = [].
Proof. intros B. unfold strip. rewrite lstrip_blank by exact B. reflexivity. Qed.

(** ** The layout of the PCM payload *)

Lemma unpack_int16_bytes (z : Z) : unpack_le (int16_bytes z) = z mod 65536.
Proof.
  unfold int16_bytes. cbn [unpack_le]. rewrite !Z_of_byte_of_Z.
  Z.to_euclidean_division_equations; lia.
Qed.

Lemma tobytes_nth (pcm16 : list Z) (i : nat) (z : Z) :
  nth_error pcm16 i = Some z ->
  nth_error (tobytes pcm16) (2 * i) = Some (byte_of_Z z) /\
  nth_error (tobytes pcm16) (2 * i + 1) = Some (byte_of_Z (z / 256)).
Proof.
  revert i. induction pcm16 as [|y l IH]; intros [|i] E;
    try discriminate E.
  - injection E as ->. split; reflexivity.
  - cbn [nth_error] in E. destruct (IH i E) as [H0 H1].
    replace (2 * S i)%nat with (S (S (2 * i))) by lia.
    replace (S (S (2 * i)) + 1)%nat with (S (S (2 * i + 1))) by lia.
    split; [exact H0 | exact H1].
Qed.

(** ** ASCII texts and their payloads *)

Lemma utf8_decode_ascii (bs : list N) :
  ascii_text bs -> utf8_decode bs = Some bs.
Proof.
  induction 1 as [|b bs Hb _ IH]; [reflexivity|].
  cbn [utf8_decode]. apply N.ltb_lt in Hb. rewrite Hb, IH. reflexivity.
Qed.

Lemma utf8_decode_to_ascii (bs : list N) (text : str) :
  ascii_text text -> utf8_decode bs = Some text -> bs = text.
Proof.
  revert text. induction bs as [|b0 r0 IH]; intros text Ha E.
  - injection E as <-. reflexivity.
  - cbn [utf8_decode] in E.
    assert (Big : forall c r,
               option_map (cons c) (utf8_decode r) = Some text ->
               (128 <= c)%N -> False).
    { intros c r Ec Hc. destruct (utf8_decode r); [|discriminate Ec].
      injection Ec as <-. inversion Ha; subst. lia. }
    destruct (b0 <? 128)%N eqn:B0.
    { destruct (utf8_decode r0) as [t|] eqn:D; [|discriminate E].
      injection E as <-. inversion Ha; subst.
      f_equal. apply IH; [assumption | reflexivity]. }
    apply N.ltb_ge in B0.
    destruct (in_range 194 223 b0) eqn:B2.
    { unfold in_range in B2. apply andb_true_iff in B2.
      destruct B2 as [L2 U2]. apply N.leb_le in L2.
      destruct r0 as [|b1 r1]; [discriminate E|].
      destruct (is_cont b1); [|discriminate E].
      exfalso. eapply Big; [exact E|]. unfold low6. lia. }
    destruct (in_range 224 239 b0) eqn:B3.
    { unfold in_range in B3. apply andb_true_iff in B3.
      destruct B3 as [L3 U3]. apply N.leb_le in L3.
      destruct r0 as [|b1 [|b2 r2]]; try discriminate E.
      destruct (in_range _ _ b1) eqn:C1; [|discriminate E].
      destruct (is_cont b2); [|discriminate E].
      unfold in_range in C1. apply andb_true_iff in C1.
      destruct C1 as [C1 _]. apply N.leb_le in C1.
      exfalso. eapply Big; [exact E|]. unfold low6.
      destruct (b0 =? 224)%N eqn:Q.
      - apply N.eqb_eq in Q. lia.
      - apply N.eqb_neq in Q. lia. }
    destruct (in_range 240 244 b0) eqn:B4; [|discriminate E].
    unfold in_range in B4. apply andb_true_iff in B4.
    destruct B4 as [L4 U4]. apply N.leb_le in L4.
    destruct r0 as [|b1 [|b2 [|b3 r3]]]; try discriminate E.
    destruct (in_range _ _ b1) eqn:C1; [|discriminate E].
    destruct (is_cont b2); [|discriminate E].
    destruct (is_cont b3); [|discriminate E].
    unfold in_range in C1. apply andb_true_iff in C1.
    destruct C1 as [C1 _]. apply N.leb_le in C1.
    exfalso. eapply Big; [exact E|]. unfold low6.
    destruct (b0 =? 240)%N eqn:Q.
    + apply N.eqb_eq in Q. lia.
    + apply N.eqb_neq in Q. lia.
Qed.

(** Line 63.  A text of ASCII characters has exactly one payload, its
    ASCII bytes: no other byte string (an overlong encoding, say) decodes
    to it.  In particular the command words are recognised from their bytes
    alone. *)
Theorem ascii_text_has_one_payload (p : bytes) (text : str) :
  ascii_text text ->
  (decode p = Some text <-> List.map Byte.to_N p = text).
Proof.
  intros Ha. unfold decode. split.
  - apply utf8_decode_to_ascii, Ha.
  - intros <-. apply utf8_decode_ascii, Ha.
Qed.

Section Coverage.
Context {np : Numpy} {tts : TTS}.

Notation "x <- m ;; k" := (bind m (fun x => k))
  (at level 61, m at next level, right associativity).
Notation "m ;; k" := (bind m (fun _ => k))
  (at level 61, right associativity).

(** ** Identifiers set by commands *)

(** Lines 75 and 88.  The language code a LANG: command sets, and the voice
    name a successful VOICE: command sets, are the text after the prefix
    without a blank prefix and a blank suffix; they neither begin nor end
    with white space. *)
Theorem identifiers_are_stripped
        (s : session) (w : world) (text : str)
        (c : control) (s' : session) (w' : world) :
  request w text ->
  cycle (s, w) = (c, (s', w')) ->
  (startswith text (lit "LANG:") = true ->
   no_outer_space (lang s') /\
   exists a b, skipn 5 text = a ++ lang s' ++ b /\ blank a /\ blank b) /\
  (startswith text (lit "VOICE:") = true ->
   forall sty e,
     get_voice_style (engine w) (strip (skipn 6 text)) = (Return sty, e) ->
     no_outer_space (voice_name s') /\
     exists a b, skipn 6 text = a ++ voice_name s' ++ b /\ blank a /\ blank b).
Proof.
  intros R E. rewrite (cycle_request s w text R) in E. split.
  - intros Hl. rewrite (dispatch_lang text Hl), cmd_lang_eq in E.
    apply acked in E. destruct E as [-> _]. cbn [lang set_lang].
    destruct (strip_spec (skipn 5 text)) as (a & b & Es & Ba & Bb & Hn).
    split; [exact Hn|]. exists a, b. auto.
  - intros Hv sty e G. rewrite (dispatch_voice text Hv), cmd_voice_eq in E.
    cbv zeta in E. change (engine (after_payload w)) with (engine w) in E.
    rewrite G in E. apply acked in E. destruct E as [-> _].
    cbn [voice_name set_voice].
    destruct (strip_spec (skipn 6 text)) as (a & b & Es & Ba & Bb & Hn).
    split; [exact Hn|]. exists a, b. auto.
Qed.

(** Lines 88 and 96.  An empty or blank remainder: LANG: accepts it and the
    language becomes the empty string; SPEED: rejects it ([float] raises
    [ValueError]), logs the invalid value and leaves the session as it
    was.  Both are acknowledged by the empty frame on an output stream that
    accepts the write. *)
Theorem blank_remainders
        (s : session) (w : world) (r : str)
        (c : control) (s' : session) (w' : world) :
  blank r ->
  cycle (s, w) = (c, (s', w')) ->
  (request w (lit "LANG:" ++ r) ->
   s' = set_lang [] s /\
   (writable 1 w ->
    c = Continue /\ logged_since w w' = [LogLangChanged []] /\
    stdout w' = stdout w ++ [x00; x00; x00; x00])) /\
  (request w (lit "SPEED:" ++ r) ->
   s' = s /\
   (writable 1 w ->
    c = Continue /\ logged_since w w' = [LogSpeedInvalid] /\
    stdout w' = stdout w ++ [x00; x00; x00; x00])).
Proof.
  intros B E. split; intros R; rewrite (cycle_request s w _ R) in E.
  - assert (Hl : startswith (lit "LANG:" ++ r) (lit "LANG:") = true)
      by (destruct r; vm_compute; reflexivity).
    assert (Hr : skipn 5 (lit "LANG:" ++ r) = r)
      by (vm_compute; reflexivity).
    rewrite (dispatch_lang _ Hl), cmd_lang_eq, Hr in E.
    rewrite (strip_blank r B) in E.
    apply acked in E. destruct E as [-> Hw]. split; [reflexivity|].
    intros Hq. destruct (Hw Hq) as [-> ->]. repeat split.
    apply logged_since_add. reflexivity.
  - assert (Hs : startswith (lit "SPEED:" ++ r) (lit "SPEED:") = true)
      by (destruct r; vm_compute; reflexivity).
    assert (Hr : skipn 6 (lit "SPEED:" ++ r) = r)
      by (vm_compute; reflexivity).
    rewrite (dispatch_speed _ Hs), cmd_speed_eq, Hr in E.
    rewrite (strip_blank r B) in E.
    change (py_float []) with (@None float) in E.
    apply acked in E. destruct E as [-> Hw]. split; [reflexivity|].
    intros Hq. destruct (Hw Hq) as [-> ->]. repeat split.
    apply logged_since_add. reflexivity.
Qed.

(** ** A successful synthesis *)

(** Lines 107-130.  When the engine returns a waveform and a duration, the
    response is the header of twice the number of samples followed by the
    samples in their order, two bytes each, low byte first: bytes [2i] and
    [2i+1] of the payload are the 16-bit two's-complement value of sample
    [i] after scaling and casting.  One SYNTH line is logged and the
    session is untouched. *)
Theorem synthesis_payload_layout
        (s : session) (w : world) (text : str)
        (wav : list (list float32)) (d0 : float) (ds : list float)
        (e : Engine) :
  request w text ->
  is_command text = false ->
  synthesize (engine w) text (style s) (lang s) (total_steps s) (speed s)
  = (Return (wav, d0 :: ds), e) ->
  2 * Z.of_nat (n_samples wav) < 4294967296 ->
  writable 2 w ->
  let pcm := tobytes (to_pcm16 (flatten wav)) in
  exists w',
    cycle (s, w) = (Continue, (s, w')) /\
    stdout w' = stdout w ++ le32 (2 * Z.of_nat (n_samples wav)) ++ pcm /\
    List.length pcm = (2 * n_samples wav)%nat /\
    logged_since w w'
    = [LogSynth (List.length text) d0 (2 * n_samples wav)] /\
    engine w' = e /\
    forall i x,
      nth_error (flatten wav) i = Some x ->
      exists lo hi,
        nth_error pcm (2 * i) = Some lo /\
        nth_error pcm (2 * i + 1) = Some hi /\
        unpack_le [lo; hi] = astype_int16 (mul_int x 32767) mod 65536.
Proof.
  intros R Hc Hs Hn Hq pcm.
  assert (Hlen : List.length pcm = (2 * n_samples wav)%nat).
  { unfold pcm, n_samples. rewrite tobytes_length, to_pcm16_length.
    reflexivity. }
  assert (Hp : pack_I (Z.of_nat (List.length pcm))
               = Some (le32 (2 * Z.of_nat (n_samples wav)))).
  { rewrite Hlen. unfold pack_I.
    replace (Z.of_nat (2 * n_samples wav)) with (2 * Z.of_nat (n_samples wav))
      by lia.
    replace (0 <=? _) with true by (symmetry; apply Z.leb_le; lia).
    replace (_ <? 4294967296) with true by (symmetry; apply Z.ltb_lt; lia).
    reflexivity. }
  eexists. split; [|split; [|split; [exact Hlen|split; [|split]]]].
  - rewrite (cycle_request s w text R), (dispatch_synth text Hc), synth_eq.
    change (engine (after_payload w)) with (engine w). rewrite Hs.
    cbv zeta. cbn [nth_error]. fold pcm. rewrite Hp.
    rewrite send_frame_ok by exact Hq. reflexivity.
  - cbn. rewrite <- app_assoc. reflexivity.
  - apply logged_since_add. cbn. rewrite Hlen. reflexivity.
  - reflexivity.
  - intros i x Hx.
    assert (Hz : nth_error (to_pcm16 (flatten wav)) i
                 = Some (astype_int16 (mul_int x 32767))).
    { unfold to_pcm16. rewrite nth_error_map, Hx. reflexivity. }
    destruct (tobytes_nth _ _ _ Hz) as [H0 H1].
    do 2 eexists. split; [exact H0|]. split; [exact H1|].
    apply unpack_int16_bytes.
Qed.

(** ** How much input an iteration consumes *)

Ltac field_step :=
  cbv [same_stdin same_session same_engine same_steps];
  intros; cbn; congruence.

Lemma same_stdin_settled (m : M control) (st : state) :
  respects same_stdin m -> same_stdin st (snd (except_clauses (m st))).
Proof.
  intros H. apply respects_except_clauses; solve [apply H | field_step].
Qed.

(** An iteration consumes the header, and the announced payload when the
    announced length is within (0, 100000]; nothing else. *)
Lemma cycle_input (s : session) (w : world) :
  stdin (snd (snd (cycle (s, w)))) =
  if (List.length (header w) <? 4)%nat || (text_len w =? 0)
     || (100000 <? text_len w)
  then skipn 4 (stdin w)
  else skipn (Z.to_nat (text_len w)) (skipn 4 (stdin w)).
Proof.
  unfold cycle. rewrite body_eq.
  destruct (List.length (header w) <? 4)%nat;
    [destruct (read_returns 4 w); reflexivity|].
  destruct (text_len w =? 0); [reflexivity|].
  destruct (100000 <? text_len w); cbn [orb].
  - match goal with
    | |- context [except_clauses (?m ?st)] =>
      pose proof (same_stdin_settled m st) as H
    end.
    unfold same_stdin in H. rewrite H; [reflexivity|].
    apply respects_ack; field_step.
  - destruct (read_returns _ _); [|reflexivity].
    destruct (decode (payload w)) as [text|].
    + pose proof (same_stdin_settled (dispatch text) (s, after_payload w))
        as H.
      unfold same_stdin in H. rewrite H; [reflexivity|].
      apply respects_dispatch; field_step.
    + cbn [except_clauses].
      pose proof (respects_handler same_stdin) as H.
      unfold same_stdin in H. rewrite H; intros; cbn; congruence.
Qed.

(** Lines 48-63.  A frame whose header announces the length of its payload,
    at most 100000, is consumed whole: the iteration reads that header and
    that payload, and however it ends, the unread input is what followed
    the frame. *)
Theorem frame_consumed_whole
        (s : session) (w : world) (p rest : bytes) :
  stdin w = le32 (Z.of_nat (List.length p)) ++ p ++ rest ->
  Z.of_nat (List.length p) <= 100000 ->
  header w = le32 (Z.of_nat (List.length p)) /\
  text_len w = Z.of_nat (List.length p) /\
  payload w = p /\
  stdin (snd (snd (cycle (s, w)))) = rest.
Proof.
  intros E Hp.
  assert (Hh : header w = le32 (Z.of_nat (List.length p)))
    by (unfold header; rewrite E; reflexivity).
  assert (Hl : text_len w = Z.of_nat (List.length p))
    by (unfold text_len; rewrite Hh; apply unpack_I_le32; lia).
  assert (Hs : skipn 4 (stdin w) = p ++ rest) by (rewrite E; reflexivity).
  split; [exact Hh|]. split; [exact Hl|]. split.
  - unfold payload. rewrite Hl, Hs, Nat2Z.id, firstn_app, Nat.sub_diag.
    rewrite firstn_all. cbn [firstn]. apply app_nil_r.
  - rewrite cycle_input, Hh, Hl, Hs, Nat2Z.id.
    change (List.length (le32 _) <? 4)%nat with false. cbn [orb].
    replace (100000 <? Z.of_nat (List.length p)) with false
      by (symmetry; apply Z.ltb_ge; lia).
    rewrite orb_false_r.
    destruct (Z.of_nat (List.length p) =? 0) eqn:Z0.
    + apply Z.eqb_eq in Z0. destruct p; [reflexivity | discriminate Z0].
    + apply skipn_length_app.
Qed.

(** Lines 48-63.  When the stream ends inside the payload, the iteration
    works on the bytes that are there; it leaves no input, so an iteration
    that continues is followed by one that finds no header and ends the
    loop.  When instead the process is interrupted while it waits for the
    rest of the payload, the iteration ends the loop at once, with the
    session and the output as they were. *)
Theorem truncated_payload (s : session) (w : world) :
  List.length (header w) = 4%nat ->
  0 < text_len w <= 100000 ->
  (List.length (stdin w) < 4 + Z.to_nat (text_len w))%nat ->
  payload w = skipn 4 (stdin w) /\
  forall c s' w',
    cycle (s, w) = (c, (s', w')) ->
    stdin w' = [] /\
    (c = Continue ->
     forall fuel, loop (S (S fuel)) (s, w) = Some (s', consume 4 w')) /\
    (stdin_end w = Sigint -> c = Break /\ s' = s /\ stdout w' = stdout w).
Proof.
  intros Hh Hl Hn.
  assert (Hk : (List.length (skipn 4 (stdin w)) <= Z.to_nat (text_len w))%nat)
    by (rewrite length_skipn; lia).
  split; [unfold payload; apply firstn_all2, Hk|].
  intros c s' w' E.
  assert (Hin : stdin w' = []).
  { pose proof (cycle_input s w) as H. rewrite E, Hh in H. cbn [snd] in H.
    change (4 <? 4)%nat with false in H.
    replace (text_len w =? 0) with false in H
      by (symmetry; apply Z.eqb_neq; lia).
    replace (100000 <? text_len w) with false in H
      by (symmetry; apply Z.ltb_ge; lia).
    cbn [orb] in H. rewrite H. apply skipn_all2, Hk. }
  split; [exact Hin|]. split.
  - intros -> fuel.
    rewrite (loop_continue _ _ _ E). apply loop_break, cycle_short_header.
    unfold header. rewrite Hin. cbn. lia.
  - intros Hs.
    destruct (cycle_interrupted_read s w) as (w1 & C & Ho & _).
    { split; [exact Hs|]. right. auto. }
    rewrite C in E. injection E as <- <- <-. auto.
Qed.

(** ** What an iteration changes *)

Lemma same_session_settled (m : M control) (st : state) :
  respects same_session m -> same_session st (snd (except_clauses (m st))).
Proof.
  intros H. apply respects_except_clauses; solve [apply H | field_step].
Qed.

Lemma same_engine_settled (m : M control) (st : state) :
  respects same_engine m -> same_engine st (snd (except_clauses (m st))).
Proof.
  intros H. apply respects_except_clauses; solve [apply H | field_step].
Qed.

(** Lines 45-142.  The session after an iteration is the session before
    it, unless the request is a VOICE: command whose lookup returned a
    style (voice name and style are set), a LANG: command (the language is
    set) or a SPEED: command whose remainder parsed (the speed is set).
    PING, QUIT, synthesis requests, empty and oversized frames, undecodable
    payloads, failed commands and interrupted calls change nothing. *)
Theorem session_transition
        (s : session) (w : world) (c : control) (s' : session) (w' : world) :
  cycle (s, w) = (c, (s', w')) ->
  s' = s \/
  exists text,
    request w text /\
    ((startswith text (lit "VOICE:") = true /\
      exists sty e,
        get_voice_style (engine w) (strip (skipn 6 text)) = (Return sty, e) /\
        s' = set_voice (strip (skipn 6 text)) sty s) \/
     (startswith text (lit "LANG:") = true /\
      s' = set_lang (strip (skipn 5 text)) s) \/
     (startswith text (lit "SPEED:") = true /\
      exists x,
        py_float (strip (skipn 6 text)) = Some x /\ s' = set_speed x s)).
Proof.
  intros E. unfold cycle in E.
  destruct (body_cases s w)
    as [[_ H]|[(_ & _ & H)|[(_ & _ & H)|[(_ & _ & _ & H)
       |[(text & R & H)|(_ & w1 & H & _)]]]]];
    rewrite H in E.
  6:{ injection E as _ <- _. auto. }
  - injection E as _ <- _. auto.
  - injection E as _ <- _. auto.
  - apply acked in E. destruct E as [-> _]. auto.
  - cbn [except_clauses] in E.
    destruct (handler_session UnicodeDecodeError s (after_payload w))
      as (c1 & w1 & E1).
    rewrite E1 in E. injection E as _ <- _. auto.
  - assert (K : forall m, respects same_session m -> dispatch text = m ->
                          s' = s).
    { intros m Hm D. rewrite D in E.
      pose proof (same_session_settled m (s, after_payload w) Hm) as S.
      rewrite E in S. exact S. }
    destruct (dispatch_cases text)
      as [[_ D]|[[_ D]|[[Hv D]|[[Hl D]|[[Hs D]|[_ D]]]]]].
    + left. refine (K _ _ D). apply respects_cmd_ping; field_step.
    + left. refine (K _ _ D). apply respects_cmd_quit; field_step.
    + rewrite D, cmd_voice_eq in E. cbv zeta in E.
      change (engine (after_payload w)) with (engine w) in E.
      destruct (get_voice_style (engine w) (strip (skipn 6 text)))
        as [[sty|x|] e] eqn:G.
      * apply acked in E. destruct E as [-> _].
        right. exists text. split; [exact R|]. left. split; [exact Hv|].
        exists sty, e. auto.
      * apply acked in E. destruct E as [-> _]. auto.
      * injection E as _ <- _. auto.
    + rewrite D, cmd_lang_eq in E. apply acked in E. destruct E as [-> _].
      right. exists text. split; [exact R|]. right; left. auto.
    + rewrite D, cmd_speed_eq in E.
      destruct (py_float (strip (skipn 6 text))) as [x|] eqn:F;
        apply acked in E; destruct E as [-> _]; [|auto].
      right. exists text. split; [exact R|]. right; right.
      split; [exact Hs|]. exists x. auto.
    + left. refine (K _ _ D). apply respects_synth; field_step.
Qed.

(** Lines 30 and 111.  No request changes the step count: after any run
    of the loop it is the one the loop started with. *)
Theorem total_steps_constant
        (fuel : nat) (s : session) (w : world) (s' : session) (w' : world) :
  loop fuel (s, w) = Some (s', w') -> total_steps s' = total_steps s.
Proof.
  intros E.
  apply (respects_loop same_steps) in E; try field_step. exact E.
Qed.

(** Lines 45-142.  The engine is called only for a VOICE: command and for
    a synthesis request: after any other iteration (PING, QUIT, LANG:,
    SPEED:, an empty or oversized frame, an undecodable payload, a short
    header) the engine is in the state it was in. *)
Theorem engine_called_only_when_needed
        (s : session) (w : world) (c : control) (s' : session) (w' : world) :
  cycle (s, w) = (c, (s', w')) ->
  engine w' = engine w \/
  exists text,
    request w text /\
    (startswith text (lit "VOICE:") = true \/ is_command text = false).
Proof.
  intros E. unfold cycle in E.
  destruct (body_cases s w)
    as [[_ H]|[(_ & _ & H)|[(_ & _ & H)|[(_ & _ & _ & H)
       |[(text & R & H)|(_ & w1 & H & [Hw|Hw])]]]]];
    rewrite H in E.
  6,7:(injection E as _ _ <-; subst w1; auto).
  - injection E as _ _ <-. auto.
  - injection E as _ _ <-. auto.
  - left.
    match type of E with
    | except_clauses (?m ?st) = _ =>
      pose proof (same_engine_settled m st) as S
    end.
    rewrite E in S. apply S. apply respects_ack; field_step.
  - left. cbn [except_clauses] in E.
    pose proof (respects_handler same_engine) as S.
    specialize (S ltac:(field_step) ltac:(field_step) ltac:(field_step)
                  ltac:(field_step) UnicodeDecodeError (s, after_payload w)).
    rewrite E in S. exact S.
  - assert (K : forall m, respects same_engine m -> dispatch text = m ->
                          engine w' = engine w).
    { intros m Hm D. rewrite D in E.
      pose proof (same_engine_settled m (s, after_payload w) Hm) as S.
      rewrite E in S. exact S. }
    destruct (dispatch_cases text)
      as [[_ D]|[[_ D]|[[Hv D]|[[_ D]|[[_ D]|[Hc D]]]]]].
    + left. refine (K _ _ D). apply respects_cmd_ping; field_step.
    + left. refine (K _ _ D). apply respects_cmd_quit; field_step.
    + right. exists text. auto.
    + left. refine (K _ _ D). apply respects_cmd_lang; field_step.
    + left. refine (K _ _ D). apply respects_cmd_speed; field_step.
    + right. exists text. auto.
Qed.

(** ** Responses on an open and on a closed pipe *)


Lemma ack_closed (s : session) (w : world) :
  stdout_quota w = Some 0%nat ->
  (write_empty_frame ;; ret Continue) (s, w) = (Raise BrokenPipeError, (s, w)).
Proof.
  intros Hq. unfold bind at 1.
  rewrite write_empty_frame_closed by exact Hq. reflexivity.
Qed.

Lemma stdout_write_closed (b : bytes) (s : session) (w : world) :
  stdout_quota w = Some 0%nat ->
  stdout_write b (s, w) = (Raise BrokenPipeError, (s, w)).
Proof. intros Hq. unfold stdout_write. cbn [fst snd]. rewrite Hq. reflexivity. Qed.

Lemma cmd_ping_closed (s : session) (w : world) :
  stdout_quota w = Some 0%nat ->
  cmd_ping (s, w) = (Raise BrokenPipeError, (s, w)).
Proof.
  intros Hq. unfold cmd_ping. unfold bind at 1.
  rewrite stdout_write_closed by exact Hq. reflexivity.
Qed.

Lemma send_frame_closed (hdr pcm : bytes) (s : session) (w : world) :
  stdout_quota w = Some 0%nat ->
  (stdout_write hdr ;; stdout_write pcm ;; stdout_flush ;; ret Continue)
    (s, w)
  = (Raise BrokenPipeError, (s, w)).
Proof.
  intros Hq. unfold bind at 1.
  rewrite stdout_write_closed by exact Hq. reflexivity.
Qed.


(** Lines 132-142.  Once the peer has closed the pipe, nothing more is
    written, and the loop goes on only over empty frames: the first
    iteration that has anything to answer (or finds no header, or reads
    QUIT) ends the loop. *)
Theorem closed_pipe_stops_the_loop
        (s : session) (w : world) (c : control) (s' : session) (w' : world) :
  stdout_quota w = Some 0%nat ->
  cycle (s, w) = (c, (s', w')) ->
  stdout w' = stdout w /\
  stdout_quota w' = Some 0%nat /\
  (c = Continue ->
   List.length (header w) = 4%nat /\ text_len w = 0 /\
   s' = s /\ w' = consume 4 w).
Proof.
  intros Hq E. unfold cycle in E.
  assert (Broken :
            forall (s1 : session) (X : world),
              stdout X = stdout w -> stdout_quota X = Some 0%nat ->
              except_clauses (Raise BrokenPipeError, (s1, X)) = (c, (s', w')) ->
              stdout w' = stdout w /\
              stdout_quota w' = Some 0%nat /\
              (c = Continue ->
               List.length (header w) = 4%nat /\ text_len w = 0 /\
               s' = s /\ w' = consume 4 w)).
  { intros s1 X HX HqX EX. cbn [except_clauses] in EX.
    rewrite handler_closed in EX by exact HqX.
    injection EX as <- <- <-. repeat split; auto; discriminate. }
  assert (Failed :
            forall (x : exception) (s1 : session) (X : world),
              stdout X = stdout w -> stdout_quota X = Some 0%nat ->
              except_clauses (Raise x, (s1, X)) = (c, (s', w')) ->
              stdout w' = stdout w /\
              stdout_quota w' = Some 0%nat /\
              (c = Continue ->
               List.length (header w) = 4%nat /\ text_len w = 0 /\
               s' = s /\ w' = consume 4 w)).
  { intros x s1 X HX HqX EX. cbn [except_clauses] in EX.
    rewrite handler_closed in EX by exact HqX.
    injection EX as <- <- <-. repeat split; auto; discriminate. }
  destruct (body_cases s w)
    as [[Hsh H]|[(Hh & Hl & H)|[(Hh & Hl & H)|[(Hh & Hl & _ & H)
       |[(text & R & H)|(Hi & w1 & H & [Hw|Hw])]]]]];
    rewrite H in E.
  6,7:(injection E as <- <- <-; subst w1; repeat split; auto; discriminate).
  - injection E as <- <- <-. repeat split; auto; discriminate.
  - injection E as <- <- <-. repeat split; auto.
  - rewrite ack_closed in E by exact Hq. (refine (Broken _ _ _ _ E); [reflexivity | exact Hq]).
  - (refine (Failed _ _ _ _ _ E); [reflexivity | exact Hq]).
  - destruct (dispatch_cases text)
      as [[-> D]|[[-> D]|[[Hv D]|[[Hl' D]|[[Hs D]|[Hc D]]]]]];
      rewrite D in E.
    + rewrite cmd_ping_closed in E by exact Hq. (refine (Broken _ _ _ _ E); [reflexivity | exact Hq]).
    + rewrite cmd_quit_eq in E. injection E as <- <- <-.
      repeat split; auto; discriminate.
    + rewrite cmd_voice_eq in E. cbv zeta in E.
      destruct (get_voice_style _ _) as [[sty|x|] e].
      * rewrite ack_closed in E by exact Hq. (refine (Broken _ _ _ _ E); [reflexivity | exact Hq]).
      * rewrite ack_closed in E by exact Hq. (refine (Broken _ _ _ _ E); [reflexivity | exact Hq]).
      * injection E as <- <- <-. repeat split; auto; discriminate.
    + rewrite cmd_lang_eq, ack_closed in E by exact Hq.
      (refine (Broken _ _ _ _ E); [reflexivity | exact Hq]).
    + rewrite cmd_speed_eq in E.
      destruct (py_float _); rewrite ack_closed in E by exact Hq;
        (refine (Broken _ _ _ _ E); [reflexivity | exact Hq]).
    + rewrite synth_eq in E.
      destruct (synthesize _ _ _ _ _ _) as [[[wav duration]|x|] e].
      * cbv zeta in E. destruct (nth_error duration 0) as [d0|].
        -- destruct (pack_I _) as [hdr|].
           ++ rewrite send_frame_closed in E by exact Hq.
              (refine (Broken _ _ _ _ E); [reflexivity | exact Hq]).
           ++ (refine (Failed _ _ _ _ _ E); [reflexivity | exact Hq]).
        -- (refine (Failed _ _ _ _ _ E); [reflexivity | exact Hq]).
      * (refine (Failed _ _ _ _ _ E); [reflexivity | exact Hq]).
      * injection E as <- <- <-. repeat split; auto; discriminate.
Qed.

(** ** Start-up and the end of the process *)

Lemma startup_input (argv : list str) (w : world) :
  stdin (snd (startup argv w)) = stdin w.
Proof.
  unfold startup. destruct (parse_args argv) as [[[[v l] sp] steps]|];
    [|reflexivity].
  destruct (TTS_new _) as [[u|x|] e1]; try reflexivity.
  destruct (get_voice_style e1 v) as [[sty|x|] e2]; reflexivity.
Qed.


(** Lines 29-30.  A speed argument that [float] rejects, or a step-count
    argument that [int] rejects, ends the process with [ValueError] before
    anything is logged and before the engine is constructed: the world is
    untouched. *)
Theorem bad_arguments_abort (argv : list str) (w : world) :
  (exists a, nth_error argv 3 = Some a /\ py_float a = None) \/
  (exists a, nth_error argv 4 = Some a /\ py_int a = None) ->
  main argv w = Some (Uncaught ValueError, w).
Proof.
  intros H. unfold main, startup, parse_args.
  destruct H as [(a & Ha & Fa)|(a & Ha & Fa)].
  - rewrite Ha, Fa. reflexivity.
  - rewrite Ha, Fa.
    destruct (match nth_error argv 3 with
              | Some a0 => py_float a0
              | None => Some default_speed
              end); reflexivity.
Qed.

(** Each iteration that continues has consumed a whole header, so the loop
    needs at most one iteration per four bytes of input, and one more. *)
Lemma loop_terminates_quarter (fuel : nat) (st : state) :
  (List.length (stdin (snd st)) / 4 < fuel)%nat ->
  exists st', loop fuel st = Some st'.
Proof.
  revert st. induction fuel as [|fuel IH]; intros [s w] H; [lia|].
  cbn [loop]. destruct (cycle (s, w)) as [[|] st1] eqn:E; [|eauto].
  apply IH. apply cycle_consumes in E. cbn [snd] in H.
  assert (D : (List.length (stdin (snd st1)) / 4 + 1
               <= List.length (stdin w) / 4)%nat).
  { rewrite <- (Nat.div_add _ 1 4) by lia.
    apply Nat.Div0.div_le_mono. lia. }
  lia.
Qed.

(** Lines 45-145.  When start-up succeeds, the process ends in the normal
    way: the loop is left after at most one iteration per four bytes of
    input plus one, and "Daemon stopped." is the last line logged. *)
Theorem main_stops
        (argv : list str) (w : world) (s0 : session) (w1 : world) :
  startup argv w = (Return s0, w1) ->
  exists s' w2,
    loop (S (List.length (stdin w) / 4)) (s0, w1) = Some (s', w2) /\
    main argv w = Some (Stopped s', add_stderr LogStopped w2) /\
    total_steps s' = total_steps s0.
Proof.
  intros E.
  assert (Hin : stdin w1 = stdin w).
  { pose proof (startup_input argv w) as H. rewrite E in H. exact H. }
  destruct (loop_terminates_quarter (S (List.length (stdin w) / 4)) (s0, w1))
    as [[s' w2] L]; [cbn [snd]; rewrite Hin; lia|].
  exists s', w2. split; [exact L|]. split.
  - unfold main. rewrite E.
    rewrite (loop_fuel_irrelevant _ (S (List.length (stdin w1))) _ _ L).
    + reflexivity.
    + rewrite Hin.
      assert ((List.length (stdin w) / 4 <= List.length (stdin w))%nat)
        by (apply Nat.Div0.div_le_upper_bound; lia).
      lia.
  - apply (respects_loop same_steps) in L; try field_step. exact L.
Qed.

(** ** Command words *)

(** Lines 66-103.  The command words are matched exactly: PING or QUIT
    followed by anything (a newline, a space) is no command and goes to
    synthesis. *)
Theorem command_words_are_exact (suffix : str) :
  suffix <> [] ->
  is_command (lit "PING" ++ suffix) = false /\
  is_command (lit "QUIT" ++ suffix) = false /\
  dispatch (lit "PING" ++ suffix) = synth (lit "PING" ++ suffix) /\
  dispatch (lit "QUIT" ++ suffix) = synth (lit "QUIT" ++ suffix).
Proof.
  intros Hs. destruct suffix as [|c suffix]; [elim Hs; reflexivity|].
  assert (P : is_command (lit "PING" ++ c :: suffix) = false)
    by (vm_compute; reflexivity).
  assert (Q : is_command (lit "QUIT" ++ c :: suffix) = false)
    by (vm_compute; reflexivity).
  auto using dispatch_synth.
Qed.

End Coverage.

(** * The daemon on concrete inputs

    The theorems above, applied to the test double, and the inputs on which
    three sentences of the specification fail. *)

Import Double.

Ltac concrete_request :=
  unfold request; repeat split;
  solve [ vm_compute; reflexivity
        | vm_compute; intros C; discriminate C ].

Lemma cycle_parts (st : @state fake_tts) :
  cycle st = (exit_of st, (session_after st, world_after st)).
Proof.
  unfold exit_of, session_after, world_after.
  destruct (cycle st) as [c [s w]]. reflexivity.
Defined.

(** The request "hello" is answered by a frame of ten PCM bytes. *)
Lemma synthesis_frame_length_hello :
  exists (hdr pcm : bytes) (w' : world),
    cycle (session0, w_hello) = (Continue, (session0, w'))
    /\ stdout w' = stdout w_hello ++ hdr ++ pcm
    /\ List.length hdr = 4%nat
    /\ unpack_I hdr = Z.of_nat (List.length pcm)
    /\ Nat.Even (List.length pcm).
Proof.
  apply (synthesis_frame_length session0 w_hello (lit "hello")).
  - concrete_request.
  - vm_compute; reflexivity.
  - vm_compute; intros C; discriminate C.
  - exact I.
Defined.

(** A zero-length frame followed by PING, and a header announcing
    2^32 - 1 bytes. *)
Lemma length_prefix_policed_frames :
  (cycle (session0, w_empty_frame)
   = (Continue, (session0, consume 4 w_empty_frame)) /\
   stdout (consume 4 w_empty_frame) = stdout w_empty_frame /\
   stderr (consume 4 w_empty_frame) = stderr w_empty_frame /\
   stdin (consume 4 w_empty_frame) = skipn 4 (stdin w_empty_frame) /\
   forall fuel,
     loop (S fuel) (session0, w_empty_frame)
     = loop fuel (session0, consume 4 w_empty_frame)) /\
  (exists w',
     cycle (session0, w_oversized) = (Continue, (session0, w')) /\
     stdin w' = skipn 4 (stdin w_oversized) /\
     logged_since w_oversized w' = [LogTooLong (text_len w_oversized)] /\
     stdout w' = stdout w_oversized ++ [x00; x00; x00; x00] /\
     engine w' = engine w_oversized /\
     forall fuel,
       loop (S fuel) (session0, w_oversized) = loop fuel (session0, w')).
Proof.
  split.
  - apply (length_prefix_policed session0 w_empty_frame).
    + reflexivity.
    + vm_compute; reflexivity.
  - apply (length_prefix_policed session0 w_oversized).
    + reflexivity.
    + vm_compute; reflexivity.
    + exact I.
Defined.

(** PING is answered by PONG and a newline. *)
Lemma control_command_responses_ping :
  exists w',
    cycle (session0, w_ping) = (Continue, (session0, w'))
    /\ stdout w' = stdout w_ping ++ blit "PONG" ++ [x0a].
Proof.
  apply (control_command_responses session0 w_ping (lit "PING")).
  - concrete_request.
  - reflexivity.
  - exact I.
Defined.

(** An invalid byte as payload: logged, answered by the empty frame. *)
Lemma request_errors_contained_bad_utf8 :
  exists w',
    cycle (session0, w_bad_utf8) = (Continue, (session0, w')) /\
    logged_since w_bad_utf8 w' = [LogError UnicodeDecodeError] /\
    stdout w' = stdout w_bad_utf8 ++ [x00; x00; x00; x00] /\
    forall fuel,
      loop (S fuel) (session0, w_bad_utf8) = loop fuel (session0, w').
Proof.
  apply (request_errors_contained session0 w_bad_utf8).
  - reflexivity.
  - split; [vm_compute; reflexivity | vm_compute; intros C; discriminate C].
  - reflexivity.
  - exact I.
  - vm_compute; reflexivity.
Defined.

(** SPEED:fast does not parse: the session is as before, the empty frame
    is sent.  SPEED: followed by the Arabic-Indic digit one parses: the
    speed becomes 1.0 and the empty frame is sent. *)
Lemma state_commands_atomic_speed_commands :
  (session_after (session0, w_bad_speed) = session0 /\
   speed (session_after (session0, w_bad_speed)) = speed session0 /\
   (writable 1 w_bad_speed ->
    exit_of (session0, w_bad_speed) = Continue /\
    stdout (world_after (session0, w_bad_speed))
    = stdout w_bad_speed ++ [x00; x00; x00; x00])) /\
  (session_after (session0, w_arabic_speed) = set_speed f64_one session0 /\
   speed (session_after (session0, w_arabic_speed)) = f64_one /\
   (writable 1 w_arabic_speed ->
    exit_of (session0, w_arabic_speed) = Continue /\
    stdout (world_after (session0, w_arabic_speed))
    = stdout w_arabic_speed ++ [x00; x00; x00; x00])).
Proof.
  split.
  - refine (proj1 (proj2 (state_commands_atomic
                            session0 w_bad_speed (lit "SPEED:fast")
                            _ _ _ _ (cycle_parts _)) _) _).
    + concrete_request.
    + reflexivity.
    + vm_compute; reflexivity.
  - refine (proj2 (proj2 (state_commands_atomic
                            session0 w_arabic_speed
                            (lit "SPEED:" ++ [1633%N])
                            _ _ _ _ (cycle_parts _)) _) f64_one _).
    + concrete_request.
    + reflexivity.
    + vm_compute; reflexivity.
Defined.

(** "LANG: en " sets the language to "en". *)
Lemma lang_command_sets_stripped_language_en :
  lang (session_after (session0, w_lang)) = strip (skipn 5 (lit "LANG: en "))
  /\
  session_after (session0, w_lang)
  = set_lang (strip (skipn 5 (lit "LANG: en "))) session0 /\
  (writable 1 w_lang ->
   exit_of (session0, w_lang) = Continue /\
   stdout (world_after (session0, w_lang))
   = stdout w_lang ++ [x00; x00; x00; x00] /\
   logged_since w_lang (world_after (session0, w_lang))
   = [LogLangChanged (strip (skipn 5 (lit "LANG: en ")))]).
Proof.
  apply (lang_command_sets_stripped_language
           session0 w_lang (lit "LANG: en ") _ _ _).
  - concrete_request.
  - reflexivity.
  - apply cycle_parts.
Defined.

(** An invalid payload on a closed pipe: the handler cannot write the empty
    frame and the loop ends. *)
Lemma error_frame_write_failure_closed_pipe :
  exists st',
    cycle (session0, w_bad_utf8_closed) = (Break, st') /\
    forall fuel, loop (S fuel) (session0, w_bad_utf8_closed) = Some st'.
Proof.
  apply (error_frame_write_failure
           session0 w_bad_utf8_closed UnicodeDecodeError
           (session0, after_payload w_bad_utf8_closed)).
  - reflexivity.
  - exists BrokenPipeError. eexists. reflexivity.
Defined.


(** SPEED:1.2 followed by SPEED:fast: the speed stays positive. *)
Lemma speed_positive_after_two_commands :
  float_pos (speed (fst (after_loop 3 (session0, w_speeds)))) = true.
Proof.
  apply (proj2 (proj2 (proj2 speed_positive_while_accepted_positive)
                      3%nat session0 w_speeds
                      (fst (after_loop 3 (session0, w_speeds)))
                      (snd (after_loop 3 (session0, w_speeds)))
                      eq_refl)).
  - reflexivity.
  - intros x Hin. vm_compute in Hin.
    destruct Hin as [Hx|[Hx|[]]]; try discriminate Hx.
    injection Hx as <-. reflexivity.
Defined.

(** The sample 0.5 becomes 16383, which is below the PCM value of the
    sample 1; the sample 2 is scaled to 65534, which wraps to -2. *)
Lemma pcm16_conversion_samples :
  (exists t,
      trunc (mul_int f32_half 32767) = Some t /\ -32767 <= t <= 32767 /\
      0 <= t * units f32_half /\
      32767 * Z.abs (units f32_half) - 2 ^ 149 - 2 ^ 139
      < Z.abs t * 2 ^ 149 <= 32767 * Z.abs (units f32_half) + 2 ^ 139 /\
      astype_int16 (mul_int f32_half 32767) = t) /\
  astype_int16 (mul_int f32_half 32767)
  <= astype_int16 (mul_int f32_one 32767) /\
  (astype_int16 (mul_int (float32_of_Z 2) 32767) = wrap16 65534 /\
   -32768 <= wrap16 65534 <= 32767 /\
   (wrap16 65534 - 65534) mod 65536 = 0 /\
   (wrap16 65534 = 65534 <-> -32768 <= 65534 <= 32767)).
Proof.
  assert (H : in_unit_range f32_half) by (repeat split; reflexivity).
  assert (H1 : in_unit_range f32_one) by (repeat split; reflexivity).
  split; [|split].
  - apply (proj1 (proj2 pcm16_conversion) f32_half H).
  - apply (proj1 (proj2 (proj2 pcm16_conversion)) f32_half f32_one H H1).
    reflexivity.
  - apply (proj1 (proj2 (proj2 (proj2 pcm16_conversion)))
                 (float32_of_Z 2) 65534).
    + reflexivity.
    + split; [vm_compute; intros C; discriminate C | reflexivity].
Defined.

(** ** Inputs on which the specification fails *)

(** C7 fails: the default speed is positive, and the request SPEED:-1 is
    accepted and leaves a negative speed; a start-up argument -1 does the
    same. *)
Lemma speed_becomes_negative :
  float_pos (speed session0) = true /\
  request w_negative_speed (lit "SPEED:-1") /\
  exit_of (session0, w_negative_speed) = Continue /\
  float_pos (speed (session_after (session0, w_negative_speed))) = false /\
  (exists s w',
      startup argv_negative_speed (world0 [] None) = (Return s, w') /\
      float_pos (speed s) = false).
Proof.
  split; [reflexivity|]. split; [concrete_request|].
  split; [vm_compute; reflexivity|]. split; [vm_compute; reflexivity|].
  do 2 eexists. split; reflexivity.
Qed.


(** C9 fails: after "LANG: en " the language is "en", not the text after
    the prefix, " en ". *)
Lemma lang_is_not_the_raw_remainder :
  request w_lang (lit "LANG: en ") /\
  startswith (lit "LANG: en ") (lit "LANG:") = true /\
  lang (session_after (session0, w_lang)) = lit "en" /\
  lang (session_after (session0, w_lang)) <> skipn 5 (lit "LANG: en ").
Proof.
  split; [concrete_request|]. split; [reflexivity|].
  split; [vm_compute; reflexivity|]. vm_compute. intros C. discriminate C.
Qed.

(** ** The further properties on concrete inputs *)

Lemma identifiers_are_stripped_en :
  no_outer_space (lang (session_after (session0, w_lang))) /\
  exists a b,
    skipn 5 (lit "LANG: en ")
    = a ++ lang (session_after (session0, w_lang)) ++ b /\
    blank a /\ blank b.
Proof.
  refine (proj1 (identifiers_are_stripped
                   session0 w_lang (lit "LANG: en ") _ _ _ _
                   (cycle_parts _)) _).
  - concrete_request.
  - reflexivity.
Defined.

Lemma blank_remainders_speed :
  session_after (session0, w_blank_speed) = session0.
Proof.
  refine (proj1 (proj2 (blank_remainders
                          session0 w_blank_speed (lit " ") _ _ _ _
                          (cycle_parts _)) _)).
  - reflexivity.
  - concrete_request.
Defined.

Lemma synthesis_payload_layout_hello :
  exists w',
    cycle (session0, w_hello) = (Continue, (session0, w')) /\
    List.length (stdout w') = 14%nat.
Proof.
  destruct (synthesis_payload_layout
              session0 w_hello (lit "hello")
              [List.map sample (lit "hello")]
              (S754_finite false 1 (-1)) [] 1%nat)
    as (w' & Hc & Hs & Hl & _).
  - concrete_request.
  - vm_compute; reflexivity.
  - reflexivity.
  - vm_compute; reflexivity.
  - exact I.
  - exists w'. split; [exact Hc|].
    rewrite Hs, !length_app, Hl. reflexivity.
Defined.

Lemma frame_consumed_whole_hello :
  stdin (world_after (session0, w_two_frames)) = frame "PING".
Proof.
  refine (proj2 (proj2 (proj2 (frame_consumed_whole
                                 session0 w_two_frames (blit "hello")
                                 (frame "PING") _ _)))).
  - reflexivity.
  - vm_compute; intros C; discriminate C.
Defined.

Lemma truncated_payload_he :
  payload w_truncated = blit "he" /\
  (exit_of (session0, w_truncated_sigint) = Break /\
   session_after (session0, w_truncated_sigint) = session0 /\
   stdout (world_after (session0, w_truncated_sigint))
   = stdout w_truncated_sigint).
Proof.
  split.
  - refine (proj1 (truncated_payload session0 w_truncated _ _ _)).
    + reflexivity.
    + split; [vm_compute; reflexivity | vm_compute; intros C; discriminate C].
    + vm_compute. repeat constructor.
  - refine (proj2 (proj2 (proj2 (truncated_payload
                                   session0 w_truncated_sigint _ _ _)
                                _ _ _ (cycle_parts _))) eq_refl).
    + reflexivity.
    + split; [vm_compute; reflexivity | vm_compute; intros C; discriminate C].
    + vm_compute. repeat constructor.
Defined.

Lemma session_transition_lang :
  session_after (session0, w_lang) = session0 \/
  exists text,
    request w_lang text /\
    ((startswith text (lit "VOICE:") = true /\
      exists sty e,
        get_voice_style (engine w_lang) (strip (skipn 6 text))
        = (Return sty, e) /\
        session_after (session0, w_lang)
        = set_voice (strip (skipn 6 text)) sty session0) \/
     (startswith text (lit "LANG:") = true /\
      session_after (session0, w_lang)
      = set_lang (strip (skipn 5 text)) session0) \/
     (startswith text (lit "SPEED:") = true /\
      exists x,
        py_float (strip (skipn 6 text)) = Some x /\
        session_after (session0, w_lang) = set_speed x session0)).
Proof.
  apply (session_transition session0 w_lang _ _ _ (cycle_parts _)).
Defined.

Lemma total_steps_constant_speeds :
  total_steps (fst (after_loop 3 (session0, w_speeds))) = 5.
Proof.
  apply (total_steps_constant
           3 session0 w_speeds
           (fst (after_loop 3 (session0, w_speeds)))
           (snd (after_loop 3 (session0, w_speeds)))).
  reflexivity.
Defined.

Lemma engine_called_only_when_needed_ping :
  engine (world_after (session0, w_ping)) = engine w_ping \/
  exists text,
    request w_ping text /\
    (startswith text (lit "VOICE:") = true \/ is_command text = false).
Proof.
  apply (engine_called_only_when_needed
           session0 w_ping _ _ _ (cycle_parts _)).
Defined.


Lemma closed_pipe_stops_the_loop_hello :
  stdout (world_after (session0, w_hello_closed)) = stdout w_hello_closed /\
  stdout_quota (world_after (session0, w_hello_closed)) = Some 0%nat.
Proof.
  destruct (closed_pipe_stops_the_loop
              session0 w_hello_closed _ _ _ eq_refl (cycle_parts _))
    as (Ho & Hq & _).
  split; assumption.
Defined.


Lemma bad_arguments_abort_fast :
  main argv_bad_speed w_ping = Some (Uncaught ValueError, w_ping) /\
  main argv_long_steps w_ping = Some (Uncaught ValueError, w_ping).
Proof.
  split.
  - apply (bad_arguments_abort argv_bad_speed w_ping).
    left. exists (lit "fast").
    split; [reflexivity | vm_compute; reflexivity].
  - apply (bad_arguments_abort argv_long_steps w_ping).
    right. exists (List.repeat 49%N 4301).
    split; [reflexivity | vm_compute; reflexivity].
Defined.

Lemma main_stops_ping :
  exists s' w2,
    main argv0 w_ping = Some (Stopped s', add_stderr LogStopped w2).
Proof.
  destruct (main_stops argv0 w_ping
                       (match fst (startup argv0 w_ping) with
                        | Return s => s
                        | _ => session0
                        end)
                       (snd (startup argv0 w_ping)))
    as (s' & w2 & _ & Hm & _).
  - reflexivity.
  - exists s', w2. exact Hm.
Defined.

Lemma command_words_are_exact_newline :
  is_command (lit "PING" ++ [10%N]) = false /\
  is_command (lit "QUIT" ++ [10%N]) = false /\
  dispatch (lit "PING" ++ [10%N]) = synth (lit "PING" ++ [10%N]) /\
  dispatch (lit "QUIT" ++ [10%N]) = synth (lit "QUIT" ++ [10%N]).
Proof.
  apply (command_words_are_exact [10%N]). discriminate.
Defined.

Lemma ascii_text_has_one_payload_ping :
  decode (blit "PING") = Some (lit "PING") <->
  List.map Byte.to_N (blit "PING") = lit "PING".
Proof.
  apply (ascii_text_has_one_payload (blit "PING") (lit "PING")).
  unfold ascii_text. repeat constructor.
Defined.
